(** * CPU & memory stress tester: a shallow embedding of [cpu.py]

    The development follows the layout of the program.

    Definitions:
    - the workload [memory_burn], as a cycle function over the list of
      retained chunks, and the bar of [display_dashboard];
    - exceptions, worker handles, the texts the program prints and logs,
      and the trace of what a run did;
    - the host (operating system, [multiprocessing], [psutil], [time],
      [logging]) as a class of operations over a state of the world;
    - the class [CPUStressTester] in a state-and-exception monad over the
      fields of the tester, the world and the trace; the two timed polling
      loops are one function defined by well-founded recursion on the time
      left;
    - [validate_args] and the [__main__] block, up to the exit status of
      the interpreter;
    - a simulated host on which the program runs.

    Properties: bounded growth of [memory_burn]; the segments of the bar;
    the shutdown protocol of [cleanup_processes] and its idempotence;
    cleanup on every path of [run_stress_test]; what a failed start leaves
    tracked; validation; the exit status; the legacy mode.

    What the model leaves out: floats are rationals, the clock counts
    microseconds and does not go back, [print] and [logging] calls do not
    fail, and a signal arrives during a blocking call of [time] or [psutil]
    (not inside [cleanup_processes]). *)

From Stdlib Require Import ZArith QArith Qround Bool String List Lia.
From Equations Require Import Equations.
Import ListNotations.

Local Open Scope Z_scope.

(* ===================================================================== *)
(** * Python values used throughout *)
(* ===================================================================== *)

(** [s * n] on a Python sequence: [n] copies, none when [n <= 0]. *)
Definition py_repeat {A : Type} (x : A) (n : Z) : list A :=
  repeat x (Z.to_nat n).

(** [l[i:]] on a Python list: a negative [i] counts from the end, and the
    start is clipped to the list. *)
Definition py_slice_from {A : Type} (i : Z) (l : list A) : list A :=
  let len := Z.of_nat (length l) in
  let start := if i <? 0 then Z.max 0 (len + i) else Z.min i len in
  skipn (Z.to_nat start) l.

(** [int(x)] on a float: truncation toward zero.  Floats are modelled by
    rationals; [psutil] reports percentages rounded to one decimal, and on
    those the quotient by 5 computed in binary floating point truncates to
    the same integer as the exact quotient (a multiple of 5 divides
    exactly, any other value is at least 1/50 away from an integer). *)
Definition py_int (x : Q) : Z :=
  Z.quot (Qnum x) (Z.pos (Qden x)).

(** [range(a, b, step)] has [ceil((b - a) / step)] elements for a positive
    step. *)
Definition py_range_len (a b step : Z) : Z :=
  Z.max 0 ((b - a + step - 1) / step).

(* ===================================================================== *)
(** * The workload [memory_burn] *)
(* ===================================================================== *)

(** A chunk is a one-megabyte [bytearray].  Its bytes are random and no
    decision of the program reads them, so a chunk is represented by the
    serial number of its allocation and the number of byte writes it has
    received. *)
Record chunk : Type := mkChunk {
  born : nat;
  writes : Z
}.

Definition chunk_size : Z := 1024 * 1024.

Record burn_state : Type := mkBurn {
  data : list chunk;     (* the local [data] *)
  allocated : nat;       (* how many chunks were allocated so far *)
  cycles : nat           (* completed iterations of [while True] *)
}.

Section MemoryBurn.

(** The argument of the workload. *)
Variable size_mb : Z.
(** [alloc_fails k]: allocating the chunk of serial [k] raises
    [MemoryError]. *)
Variable alloc_fails : nat -> bool.
(** [sample c len k]: the positions that [random.sample(data, k)] picks in
    cycle [c] from a list of [len] chunks. *)
Variable sample : nat -> nat -> nat -> list nat.

(** [chunk = bytearray(chunk_size)], filled at every 1000th byte. *)
Definition new_chunk (serial : nat) : chunk :=
  mkChunk serial (py_range_len 0 chunk_size 1000).

(** [for _ in range(size_mb): ... data.append(chunk)]; [None] when an
    allocation raises. *)
Fixpoint allocate (n : nat) (st : burn_state) : option burn_state :=
  match n with
  | O => Some st
  | S n' =>
      if alloc_fails (allocated st) then None
      else allocate n'
             (mkBurn (data st ++ [new_chunk (allocated st)])
                     (S (allocated st)) (cycles st))
  end.

(** One touch: a write at every 5000th byte of the chunk. *)
Definition touch (c : chunk) : chunk :=
  mkChunk (born c) (writes c + py_range_len 0 chunk_size 5000).

Fixpoint touch_at (picks : list nat) (pos : nat) (l : list chunk)
  : list chunk :=
  match l with
  | [] => []
  | c :: l' =>
      (if existsb (Nat.eqb pos) picks then touch c else c)
        :: touch_at picks (S pos) l'
  end.

(** [if data: for chunk in random.sample(data, min(10, len(data))): ...];
    the chunks are mutated in place, the list keeps its order. *)
Definition modify_existing (st : burn_state) : burn_state :=
  match data st with
  | [] => st
  | _ :: _ =>
      let k := Nat.min 10 (length (data st)) in
      mkBurn (touch_at (sample (cycles st) (length (data st)) k) 0 (data st))
             (allocated st) (cycles st)
  end.

(** [if len(data) > size_mb * 2: data = data[size_mb:]]. *)
Definition clear_some (st : burn_state) : burn_state :=
  if Z.of_nat (length (data st)) >? size_mb * 2
  then mkBurn (py_slice_from size_mb (data st)) (allocated st) (cycles st)
  else st.

(** One iteration of [while True]; [None] when the [except Exception]
    clause ended the function. *)
Definition memory_burn_cycle (st : burn_state) : option burn_state :=
  match allocate (Z.to_nat size_mb) st with
  | None => None
  | Some st1 =>
      let st2 := clear_some (modify_existing st1) in
      Some (mkBurn (data st2) (allocated st2) (S (cycles st2)))
  end.

(** The state of the worker after [n] iterations, from [data = []]. *)
Fixpoint memory_burn (n : nat) : option burn_state :=
  match n with
  | O => Some (mkBurn [] 0 0)
  | S n' =>
      match memory_burn n' with
      | None => None
      | Some st => memory_burn_cycle st
      end
  end.

End MemoryBurn.

(* ===================================================================== *)
(** * The dashboard bar *)
(* ===================================================================== *)

(** The two characters of a bar: U+2588 (full block) and U+2591 (light
    shade). *)
Inductive segment : Type := filled | empty.

(** [bar_length = int(usage / 5)] and
    [bar = filled * bar_length + empty * (20 - bar_length)]. *)
Definition bar_length (usage : Q) : Z := py_int (usage / 5).

Definition render_bar (usage : Q) : list segment :=
  py_repeat filled (bar_length usage) ++ py_repeat empty (20 - bar_length usage).

(* ===================================================================== *)
(** * Exceptions *)
(* ===================================================================== *)

(** The subclasses of [Exception] that the program and its libraries
    raise. *)
Inductive exn_class : Type :=
| ValueError | OSError | MemoryError | RuntimeError | AssertionError.

(** An instance of a subclass of [Exception], with its message. *)
Record error : Type := mkError {
  err_class : exn_class;
  err_msg : string
}.

(** What a [raise] can carry: [Exception] and the two other subclasses of
    [BaseException] the program meets.  [except Exception] catches the
    first constructor only. *)
Inductive exn : Type :=
| Exception (e : error)
| KeyboardInterrupt
| SystemExit (code : Z).

Definition is_ValueError (e : exn) : bool :=
  match e with
  | Exception (mkError ValueError _) => true
  | _ => false
  end.

(* ===================================================================== *)
(** * Worker handles, printed text and the trace *)
(* ===================================================================== *)

(** The [target] of a [multiprocessing.Process]. *)
Inductive workload : Type := cpu_burn | memory_burn_worker.

(** A [multiprocessing.Process] object: [ident] is the rank of the object
    among the [Process] objects the program constructed, [args] the single
    argument of its target. *)
Record Process : Type := mkProcess {
  ident : nat;
  target : workload;
  args : Z
}.

(** [psutil.virtual_memory()]. *)
Record vmem : Type := mkVmem {
  vm_total : Z;
  vm_available : Z;
  vm_used : Z;
  vm_percent : Q
}.

(** The lines of [get_temperature_info]. *)
Inductive temp_line : Type :=
| TempReading (name : string) (current : Q)
| TempNotAvailable
| TempNotSupported
| TempError (e : error).

(** Every text the program prints or logs, with the values formatted into
    it. *)
Inductive text : Type :=
(* signal_handler *)
| InterruptReceived
| InterruptSignalReceived
(* cleanup_processes *)
| ErrorCleaningUp (e : error)
| AllCleanedUp
(* display_dashboard *)
| Rule (eq_sign : bool) (width : Z)
| DashTitle
| DashElapsed (ticks : Z)
| DashCores (n : Z)
| DashMemSize (n : Z)
| DashIntensity (n : Z)
| DashOverall (usage : Q)
| DashPerCoreHeader
| DashCore (i : nat) (bar : list segment) (usage : Q)
| DashMemUsage (percent : Q)
| DashMemUsed (used total : Z)
| DashMemBar (bar : list segment) (percent : Q)
| DashTempHeader
| TempLine (t : temp_line)
| DashPressCtrlC
| DashMetrics (ticks : Z) (cpu mem : Q)
| DashError (e : error)
(* stress_cpu, stress_memory *)
| StartedCpu (cores intensity : Z)
| ErrorStartingCpu (e : error)
| StartedMemory (n size_mb : Z)
| ErrorStartingMemory (e : error)
(* run_stress_test *)
| SysCores (physical logical : option Z)
| SysMemory (total available : Z)
| StartingStressTest
| StartingLog (cores duration intensity : Z)
| CompletedSuccessfully
| InterruptedByUser
| ErrorDuringStressTest (e : error)
(* setup_logging *)
| LogFileCreated
(* validate_args *)
| WarnCores (requested available : Z)
| WarnMemory (size_mb : Z)
(* __main__ *)
| LegacyBanner (cores time intensity : Z)
| LegacyUsage (usage : Q)
| LegacyFinished
| AdvancedBanner
| ConfigHeader
| ConfigCores (n : Z)
| ConfigDuration (n : Z)
| ConfigIntensity (n : Z)
| ConfigMemProcesses (n : Z)
| ConfigMemSize (n : Z)
| BlankLine
| InvalidArgument (e : error)
| MainInterrupted
| UnexpectedError (e : error).

Inductive level : Type := INFO | ERROR.

(** What the program did, in the order it did it.  [EvCleanup] marks the
    entry of [cleanup_processes]; the other events are calls on a worker
    handle with what the call returned ([Some e] and [inl e]: it raised
    [e]), prints and log records. *)
Inductive event : Type :=
| EvPrint (t : text)
| EvLog (l : level) (t : text)
| EvClearScreen
| EvCleanup
| EvStart (p : Process) (r : option error)
| EvIsAlive (p : Process) (r : error + bool)
| EvTerminate (p : Process) (r : option error)
| EvJoin (p : Process) (timeout : option Z) (r : option error)
| EvKill (p : Process) (r : option error).

(* ===================================================================== *)
(** * The host *)
(* ===================================================================== *)

(** How a blocking call of the main process ends: it returns; it fails
    with a subclass of [Exception]; it is interrupted and raises
    [KeyboardInterrupt]; or a SIGINT/SIGTERM arrives while it blocks and the
    interpreter runs the handler the tester installed. *)
Inductive outcome (A : Type) : Type :=
| Returned (a : A)
| Failed (e : error)
| Interrupted
| Signalled (signum : Z).
Arguments Returned {A} a.
Arguments Failed {A} e.
Arguments Interrupted {A}.
Arguments Signalled {A} signum.

(** Clock readings ([time.time()]) and intervals are counted in ticks of a
    microsecond. *)
Definition second : Z := 1000000.

(** The collaborators of the program as any process that runs its code
    sees them, over a state [W] of the outside world.  Calls on worker
    handles fail with a subclass of [Exception] (as [multiprocessing]
    does), [is_alive] included: it raises [ValueError] on a closed handle
    and [AssertionError] in a process that is not the parent of the
    worker.  Signals are delivered at the blocking calls of [time] and
    [psutil]; their delivery inside [cleanup_processes] is outside the
    model.  The clock does not go back during the calls of the polling
    loops, and a call that sleeps and returns took at least the time it
    was asked to. *)
Class Platform (W : Type) : Type := {
  (* multiprocessing *)
  mp_cpu_count : W -> Z;
  proc_start : W -> Process -> W * option error;
  proc_is_alive : W -> Process -> W * (error + bool);
  proc_terminate : W -> Process -> W * option error;
  proc_join : W -> Process -> option Z -> W * option error;
  proc_kill : W -> Process -> W * option error;
  (* logging *)
  logging_setup : W -> W * option error;
  (* time *)
  clock : W -> Z;
  time_sleep : W -> Z -> W * outcome unit;
  (* psutil *)
  psutil_cpu_count : W -> bool -> W * outcome (option Z);
  psutil_virtual_memory : W -> W * outcome vmem;
  psutil_cpu_percent : W -> Z -> W * outcome Q;
  psutil_cpu_percent_percpu : W -> Z -> W * outcome (list Q);
  psutil_has_sensors : W -> bool;
  psutil_sensors_temperatures : W -> W * outcome (list (string * list Q));
  (* the clock *)
  time_sleep_clock : forall w t w',
    time_sleep w t = (w', Returned tt) -> clock w + t <= clock w';
  psutil_cpu_percent_sleeps : forall w t w' u,
    psutil_cpu_percent w t = (w', Returned u) -> clock w + t <= clock w';
  psutil_cpu_percent_clock : forall w t w' o,
    psutil_cpu_percent w t = (w', o) -> clock w <= clock w';
  psutil_cpu_percent_percpu_clock : forall w t w' o,
    psutil_cpu_percent_percpu w t = (w', o) -> clock w <= clock w';
  psutil_virtual_memory_clock : forall w w' o,
    psutil_virtual_memory w = (w', o) -> clock w <= clock w';
  psutil_sensors_temperatures_clock : forall w w' o,
    psutil_sensors_temperatures w = (w', o) -> clock w <= clock w'
}.

(** The collaborators as the main process sees them: the process that
    runs [__main__] constructs and starts every handle it tracks and closes
    none, and there [is_alive] answers. *)
Class Host (W : Type) : Type := {
  host_platform :: Platform W;
  proc_is_alive_answers : forall w p,
    exists w' b, proc_is_alive w p = (w', inr b)
}.

(* ===================================================================== *)
(** * The tester and its monad *)
(* ===================================================================== *)

(** The fields of a [CPUStressTester], the world it runs in, the number of
    [Process] objects constructed so far and the trace. *)
Record tester (W : Type) : Type := mkTester {
  world : W;
  processes : list Process;
  memory_processes : list Process;
  running : bool;
  created : nat;
  trace : list event
}.
Arguments mkTester {W}.
Arguments world {W}.
Arguments processes {W}.
Arguments memory_processes {W}.
Arguments running {W}.
Arguments created {W}.
Arguments trace {W}.

(** A statement either completes with a value or raises. *)
Inductive result (A : Type) : Type :=
| Ok (a : A)
| Raise (e : exn).
Arguments Ok {A} a.
Arguments Raise {A} e.

Definition M (W A : Type) : Type := tester W -> result A * tester W.

Definition ret {W A} (a : A) : M W A := fun s => (Ok a, s).

Definition bind {W A B} (m : M W A) (k : A -> M W B) : M W B := fun s =>
  match m s with
  | (Ok a, s') => k a s'
  | (Raise e, s') => (Raise e, s')
  end.

Declare Scope py_scope.
Delimit Scope py_scope with py.
Notation "x <- m ;; k" := (bind m (fun x => k))
  (at level 61, m at next level, right associativity) : py_scope.
Notation "m ;; k" := (bind m (fun _ => k))
  (at level 61, right associativity) : py_scope.
Local Open Scope py_scope.

Definition raise {W A} (e : exn) : M W A := fun s => (Raise e, s).

(** [sys.exit(code)]. *)
Definition sys_exit {W A} (code : Z) : M W A := raise (SystemExit code).

(** [try: m] followed by [except] clauses: [h e] is the body of the clause
    that matches [e], if one does. *)
Definition try_except {W A} (m : M W A) (h : exn -> option (M W A)) : M W A :=
  fun s =>
    match m s with
    | (Ok a, s') => (Ok a, s')
    | (Raise e, s') =>
        match h e with
        | Some k => k s'
        | None => (Raise e, s')
        end
    end.

(** The single clause [except Exception as e: k e]. *)
Definition except_Exception {W A} (k : error -> M W A) (e : exn)
  : option (M W A) :=
  match e with
  | Exception err => Some (k err)
  | _ => None
  end.

(** [try: m finally: f]: [f] runs however [m] ended; an exception of [f]
    replaces the outcome of [m]. *)
Definition try_finally {W A} (m : M W A) (f : M W unit) : M W A := fun s =>
  let (r, s1) := m s in
  match f s1 with
  | (Ok _, s2) => (r, s2)
  | (Raise e, s2) => (Raise e, s2)
  end.

(** [for x in l: body x]. *)
Fixpoint for_each {W A} (l : list A) (body : A -> M W unit) : M W unit :=
  match l with
  | [] => ret tt
  | x :: l' => body x ;; for_each l' body
  end.

(** [for _ in range(n): body]. *)
Fixpoint repeat_body {W} (n : nat) (body : M W unit) : M W unit :=
  match n with
  | O => ret tt
  | S n' => body ;; repeat_body n' body
  end.

Definition for_range {W} (n : Z) (body : M W unit) : M W unit :=
  repeat_body (Z.to_nat n) body.

(** [enumerate(l)]. *)
Fixpoint enumerate_from {A} (i : nat) (l : list A) : list (nat * A) :=
  match l with
  | [] => []
  | x :: l' => (i, x) :: enumerate_from (S i) l'
  end.

Definition enumerate {A} (l : list A) : list (nat * A) := enumerate_from 0 l.

Definition set_world {W} (w : W) (s : tester W) : tester W :=
  mkTester w (processes s) (memory_processes s) (running s) (created s)
           (trace s).

Definition emit {W} (ev : event) : M W unit := fun s =>
  (Ok tt, mkTester (world s) (processes s) (memory_processes s) (running s)
                   (created s) (trace s ++ [ev])).

Definition print {W} (t : text) : M W unit := emit (EvPrint t).

Definition log {W} (l : level) (t : text) : M W unit := emit (EvLog l t).

Definition set_running {W} (b : bool) : M W unit := fun s =>
  (Ok tt, mkTester (world s) (processes s) (memory_processes s) b
                   (created s) (trace s)).

(** [self.processes.append(p)] and [self.memory_processes.append(p)]. *)
Definition append_process {W} (p : Process) : M W unit := fun s =>
  (Ok tt, mkTester (world s) (processes s ++ [p]) (memory_processes s)
                   (running s) (created s) (trace s)).

Definition append_memory_process {W} (p : Process) : M W unit := fun s =>
  (Ok tt, mkTester (world s) (processes s) (memory_processes s ++ [p])
                   (running s) (created s) (trace s)).

(** [self.processes.clear()] and [self.memory_processes.clear()]. *)
Definition clear_processes {W} : M W unit := fun s =>
  (Ok tt, mkTester (world s) [] (memory_processes s) (running s) (created s)
                   (trace s)).

Definition clear_memory_processes {W} : M W unit := fun s =>
  (Ok tt, mkTester (world s) (processes s) [] (running s) (created s)
                   (trace s)).

(** [multiprocessing.Process(target=t, args=(a,))]. *)
Definition new_Process {W} (t : workload) (a : Z) : M W Process := fun s =>
  (Ok (mkProcess (created s) t a),
   mkTester (world s) (processes s) (memory_processes s) (running s)
            (S (created s)) (trace s)).

(* ===================================================================== *)
(** * [CPUStressTester] *)
(* ===================================================================== *)

Definition inspect {A : Type} (a : A) : {b : A | a = b} :=
  exist _ a eq_refl.

Section Tester.

Context {W : Type} `{HP : Platform W}.

(** [p.is_alive()]: the event records how the call ended, and a failure
    is raised. *)
Definition is_alive (p : Process) : M W bool := fun s =>
  let (w', r) := proc_is_alive (world s) p in
  let s' := mkTester w' (processes s) (memory_processes s) (running s)
                     (created s) (trace s ++ [EvIsAlive p r]) in
  match r with
  | inr b => (Ok b, s')
  | inl e => (Raise (Exception e), s')
  end.

(** A call on a worker handle that returns nothing: the event records how
    it ended, and a failure is raised. *)
Definition handle_call (op : W -> W * option error)
  (ev : option error -> event) : M W unit := fun s =>
  let (w', r) := op (world s) in
  let s' := mkTester w' (processes s) (memory_processes s) (running s)
                     (created s) (trace s ++ [ev r]) in
  match r with
  | None => (Ok tt, s')
  | Some e => (Raise (Exception e), s')
  end.

Definition start (p : Process) : M W unit :=
  handle_call (fun w => proc_start w p) (EvStart p).

Definition terminate (p : Process) : M W unit :=
  handle_call (fun w => proc_terminate w p) (EvTerminate p).

Definition join (p : Process) (timeout : option Z) : M W unit :=
  handle_call (fun w => proc_join w p timeout) (EvJoin p timeout).

Definition kill (p : Process) : M W unit :=
  handle_call (fun w => proc_kill w p) (EvKill p).

(** The body of the loop of [cleanup_processes]. *)
Definition cleanup_one (p : Process) : M W unit :=
  alive <- is_alive p ;;
  if alive then
    try_except
      (terminate p ;;
       join p (Some 2) ;;
       still_alive <- is_alive p ;;
       if still_alive then
         kill p ;;
         join p None
       else ret tt)
      (except_Exception (fun e => log ERROR (ErrorCleaningUp e)))
  else ret tt.

Definition cleanup_processes : M W unit :=
  emit EvCleanup ;;
  (fun s => for_each (processes s ++ memory_processes s) cleanup_one s) ;;
  clear_processes ;;
  clear_memory_processes ;;
  log INFO AllCleanedUp.

(** [signal_handler] ends in [sys.exit(0)]: it never returns. *)
Definition signal_handler {A} (signum : Z) : M W A :=
  print InterruptReceived ;;
  log INFO InterruptSignalReceived ;;
  set_running false ;;
  cleanup_processes ;;
  sys_exit 0.

(** A blocking call of [time] or [psutil]. *)
Definition blocking {A} (op : W -> W * outcome A) : M W A := fun s =>
  let (w', o) := op (world s) in
  match o with
  | Returned a => (Ok a, set_world w' s)
  | Failed e => (Raise (Exception e), set_world w' s)
  | Interrupted => (Raise KeyboardInterrupt, set_world w' s)
  | Signalled signum => signal_handler signum (set_world w' s)
  end.

(** [time.time()]. *)
Definition time_time : M W Z := fun s => (Ok (clock (world s)), s).

(** [setup_logging]; [setup_signal_handlers] installs [signal_handler],
    which [blocking] runs. *)
Definition setup_logging : M W unit := fun s =>
  let (w', r) := logging_setup (world s) in
  match r with
  | None => log INFO LogFileCreated (set_world w' s)
  | Some e => (Raise (Exception e), set_world w' s)
  end.

(** [CPUStressTester()]. *)
Definition CPUStressTester : M W unit :=
  clear_processes ;;
  clear_memory_processes ;;
  set_running true ;;
  setup_logging.

Definition temp_lines (temps : list (string * list Q)) : list temp_line :=
  flat_map
    (fun entry : string * list Q =>
       flat_map
         (fun current : Q =>
            if Qeq_bool current 0 then [] else [TempReading (fst entry) current])
         (snd entry))
    temps.

Definition get_temperature_info : M W (list temp_line) :=
  try_except
    (fun s =>
       if psutil_has_sensors (world s) then
         (temps <- blocking psutil_sensors_temperatures ;;
          match temps with
          | [] => ret [TempNotAvailable]
          | _ :: _ => ret (temp_lines temps)
          end) s
       else ret [TempNotSupported] s)
    (except_Exception (fun e => ret [TempError e])).

Definition display_dashboard (start_time cpu_cores memory_size intensity : Z)
  : M W unit :=
  now <- time_time ;;
  let elapsed := now - start_time in
  try_except
    (cpu_usage <- blocking (fun w => psutil_cpu_percent w (second / 10)) ;;
     cpu_per_core <-
       blocking (fun w => psutil_cpu_percent_percpu w (second / 10)) ;;
     memory <- blocking psutil_virtual_memory ;;
     emit EvClearScreen ;;
     print (Rule true 60) ;;
     print DashTitle ;;
     print (Rule true 60) ;;
     print (DashElapsed elapsed) ;;
     print (DashCores cpu_cores) ;;
     print (DashMemSize memory_size) ;;
     print (DashIntensity intensity) ;;
     print (Rule false 60) ;;
     print (DashOverall cpu_usage) ;;
     print DashPerCoreHeader ;;
     for_each (enumerate cpu_per_core)
       (fun iu => print (DashCore (fst iu) (render_bar (snd iu)) (snd iu))) ;;
     print (Rule false 60) ;;
     print (DashMemUsage (vm_percent memory)) ;;
     print (DashMemUsed (vm_used memory) (vm_total memory)) ;;
     print (DashMemBar (render_bar (vm_percent memory)) (vm_percent memory)) ;;
     print (Rule false 60) ;;
     temp_info <- get_temperature_info ;;
     print DashTempHeader ;;
     for_each temp_info (fun t => print (TempLine t)) ;;
     print (Rule false 60) ;;
     print DashPressCtrlC ;;
     print (Rule true 60) ;;
     log INFO (DashMetrics elapsed cpu_usage (vm_percent memory)))
    (except_Exception
       (fun e => print (DashError e) ;; log ERROR (DashError e))).

Definition stress_cpu (cores duration intensity : Z) : M W unit :=
  try_except
    (for_range cores
       (p <- new_Process cpu_burn intensity ;;
        start p ;;
        append_process p) ;;
     log INFO (StartedCpu cores intensity))
    (except_Exception
       (fun e => log ERROR (ErrorStartingCpu e) ;; raise (Exception e))).

Definition stress_memory (processes size_mb : Z) : M W unit :=
  try_except
    (for_range processes
       (p <- new_Process memory_burn_worker size_mb ;;
        start p ;;
        append_memory_process p) ;;
     log INFO (StartedMemory processes size_mb))
    (except_Exception
       (fun e => log ERROR (ErrorStartingMemory e) ;; raise (Exception e))).

Definition get_system_info : M W (option Z * option Z * Z * Z) :=
  physical <- blocking (fun w => psutil_cpu_count w false) ;;
  logical <- blocking (fun w => psutil_cpu_count w true) ;;
  vm1 <- blocking psutil_virtual_memory ;;
  vm2 <- blocking psutil_virtual_memory ;;
  ret (physical, logical, vm_total vm1, vm_available vm2).

(** One iteration of the monitoring loop of [run_stress_test]. *)
Definition monitoring_tick (start_time cpu_cores memory_size intensity : Z)
  : M W unit :=
  display_dashboard start_time cpu_cores memory_size intensity ;;
  blocking (fun w => time_sleep w (1 * second)).

(** One iteration of the polling loop of the legacy mode. *)
Definition legacy_tick : M W unit :=
  usage <- blocking (fun w => psutil_cpu_percent w (1 * second)) ;;
  print (LegacyUsage usage) ;;
  temp_info <- get_temperature_info ;;
  for_each temp_info (fun t => print (TempLine t)) ;;
  print (Rule false 20).

(** The measure of both loops: whole seconds left before the deadline,
    plus one. *)
Definition ticks_left (start_time duration : Z) (s : tester W) : nat :=
  Z.to_nat ((start_time + duration * second - clock (world s)) / second + 1).

(** [self.running and (time.time() - start_time) < duration]. *)
Definition keep_going (start_time duration : Z) (s : tester W) : bool :=
  running s && (clock (world s) - start_time <? duration * second).

End Tester.

(* --------------------------------------------------------------------- *)
(** ** Progress of the clock: the polling loops terminate *)
(* --------------------------------------------------------------------- *)

(** [run_stress_test] and the loop of the legacy mode run in the main
    process only.  There a signal handled inside a blocking call always
    ends in the [SystemExit] of [signal_handler]. *)
Section TimedLoops.

Context {W : Type} `{HW : Host W}.

(** [m] does not set the clock back, on the paths that return or that an
    [except Exception] clause can catch. *)
Definition keeps_clock {A} (m : M W A) : Prop :=
  forall s r s', m s = (r, s') ->
    match r with
    | Ok _ | Raise (Exception _) => clock (world s) <= clock (world s')
    | _ => True
    end.

Lemma keeps_clock_ret {A} (a : A) : keeps_clock (ret a).
Proof. intros s r s' E. inversion E; subst. lia. Qed.

Lemma keeps_clock_emit ev : keeps_clock (emit ev).
Proof. intros s r s' E. inversion E; subst. simpl. lia. Qed.

Lemma keeps_clock_bind {A B} (m : M W A) (k : A -> M W B) :
  keeps_clock m -> (forall a, keeps_clock (k a)) -> keeps_clock (bind m k).
Proof.
  intros Hm Hk s r s' E. unfold bind in E.
  destruct (m s) as [[a|e] s1] eqn:Em.
  - specialize (Hm _ _ _ Em). simpl in Hm.
    specialize (Hk a _ _ _ E).
    destruct r as [b|[err| |c]]; auto; lia.
  - inversion E; subst. exact (Hm _ _ _ Em).
Qed.

Lemma keeps_clock_try {A} (m : M W A) (k : error -> M W A) :
  keeps_clock m -> (forall e, keeps_clock (k e)) ->
  keeps_clock (try_except m (except_Exception k)).
Proof.
  intros Hm Hk s r s' E. unfold try_except in E.
  destruct (m s) as [[a|e] s1] eqn:Em.
  - inversion E; subst. exact (Hm _ _ _ Em).
  - specialize (Hm _ _ _ Em). destruct e as [err| |c]; simpl in E.
    + specialize (Hk err _ _ _ E). simpl in Hm.
      destruct r as [b|[err'| |c']]; auto; lia.
    + inversion E; subst. exact I.
    + inversion E; subst. exact I.
Qed.

Lemma keeps_clock_for_each {A} (l : list A) (body : A -> M W unit) :
  (forall x, keeps_clock (body x)) -> keeps_clock (for_each l body).
Proof.
  intros Hb. induction l as [|x l IH]; simpl.
  - apply keeps_clock_ret.
  - apply keeps_clock_bind; auto.
Qed.

(** In the main process [cleanup_one] and [cleanup_processes] never
    raise. *)
Lemma cleanup_one_returns p (s : tester W) : fst (cleanup_one p s) = Ok tt.
Proof.
  unfold cleanup_one, bind, is_alive, try_except, terminate, join, kill,
    handle_call, except_Exception, log, emit, ret.
  repeat (simpl;
    match goal with
    | |- context [proc_is_alive ?w ?p] =>
        let H := fresh in
        destruct (proc_is_alive_answers w p) as (? & [] & H); rewrite H
    | |- context [proc_terminate ?w ?p] => destruct (proc_terminate w p) as [? []]
    | |- context [proc_join ?w ?p ?t] => destruct (proc_join w p t) as [? []]
    | |- context [proc_kill ?w ?p] => destruct (proc_kill w p) as [? []]
    end); reflexivity.
Qed.

Lemma for_each_cleanup_returns l (s : tester W) :
  fst (for_each l cleanup_one s) = Ok tt.
Proof.
  revert s. induction l as [|p l IH]; intros s; simpl.
  - reflexivity.
  - unfold bind. pose proof (cleanup_one_returns p s) as E.
    destruct (cleanup_one p s) as [[[]|e] s1]; simpl in E; try discriminate.
    apply IH.
Qed.

Lemma cleanup_processes_returns (s : tester W) :
  fst (cleanup_processes s) = Ok tt.
Proof.
  unfold cleanup_processes, bind. simpl.
  match goal with
  | |- context [for_each ?l cleanup_one ?s0] =>
      pose proof (for_each_cleanup_returns l s0) as E;
      destruct (for_each l cleanup_one s0) as [[[]|e] s1]
  end; simpl in E; try discriminate.
  reflexivity.
Qed.

Lemma signal_handler_exits {A} signum (s : tester W) :
  fst (signal_handler (A := A) signum s) = Raise (SystemExit 0).
Proof.
  unfold signal_handler, bind. simpl.
  match goal with
  | |- context [cleanup_processes ?s0] =>
      pose proof (cleanup_processes_returns s0) as E;
      destruct (cleanup_processes s0) as [[[]|e] s1]
  end; simpl in E; try discriminate.
  reflexivity.
Qed.

Lemma keeps_clock_blocking {A} (op : W -> W * outcome A) :
  (forall w w' o, op w = (w', o) -> clock w <= clock w') ->
  keeps_clock (blocking op).
Proof.
  intros Hop s r s' E. unfold blocking in E.
  destruct (op (world s)) as [w' o] eqn:Eo. apply Hop in Eo.
  destruct o as [a|e| |signum].
  - inversion E; subst. exact Eo.
  - inversion E; subst. exact Eo.
  - inversion E; subst. exact I.
  - pose proof (signal_handler_exits (A := A) signum (set_world w' s)) as Hs.
    rewrite E in Hs. simpl in Hs. subst r. exact I.
Qed.

Lemma keeps_clock_get_temperature_info : keeps_clock get_temperature_info.
Proof.
  unfold get_temperature_info. apply keeps_clock_try.
  - intros s r s' E. destruct (psutil_has_sensors (world s)).
    + revert E. apply keeps_clock_bind.
      * apply keeps_clock_blocking. apply psutil_sensors_temperatures_clock.
      * intros [|]; intros; apply keeps_clock_ret.
    + revert E. apply keeps_clock_ret.
  - intros e. apply keeps_clock_ret.
Qed.

Ltac keeps_clock_step :=
  lazymatch goal with
  | |- keeps_clock (bind _ _) => apply keeps_clock_bind; [|intros]
  | |- keeps_clock (emit _) => apply keeps_clock_emit
  | |- keeps_clock (ret _) => apply keeps_clock_ret
  | |- keeps_clock (for_each _ _) => apply keeps_clock_for_each; intros
  | |- keeps_clock get_temperature_info => apply keeps_clock_get_temperature_info
  | |- keeps_clock (blocking psutil_virtual_memory) =>
      apply keeps_clock_blocking; apply psutil_virtual_memory_clock
  | |- keeps_clock (blocking (fun w => psutil_cpu_percent w _)) =>
      apply keeps_clock_blocking;
      intros ? ? ? Hc; exact (psutil_cpu_percent_clock _ _ _ _ Hc)
  | |- keeps_clock (blocking (fun w => psutil_cpu_percent_percpu w _)) =>
      apply keeps_clock_blocking;
      intros ? ? ? Hc; exact (psutil_cpu_percent_percpu_clock _ _ _ _ Hc)
  end.

Lemma keeps_clock_display_dashboard a b c d :
  keeps_clock (display_dashboard a b c d).
Proof.
  unfold display_dashboard, print, log.
  apply keeps_clock_bind.
  { intros s r s' E. inversion E; subst. lia. }
  intros now. apply keeps_clock_try.
  - repeat keeps_clock_step.
  - intros e. repeat keeps_clock_step.
Qed.

Lemma monitoring_tick_clock a b c d (s s' : tester W) u :
  monitoring_tick a b c d s = (Ok u, s') ->
  clock (world s) + second <= clock (world s').
Proof.
  unfold monitoring_tick, bind. intros E.
  destruct (display_dashboard a b c d s) as [[[]|e] s1] eqn:Ed; try discriminate.
  apply keeps_clock_display_dashboard in Ed. simpl in Ed.
  unfold blocking in E.
  destruct (time_sleep (world s1) (1 * second)) as [w' o] eqn:Es.
  destruct o as [[]|e| |signum].
  - inversion E; subst. simpl. apply time_sleep_clock in Es. lia.
  - discriminate.
  - discriminate.
  - pose proof (signal_handler_exits (A := unit) signum (set_world w' s1)) as Hs.
    rewrite E in Hs. discriminate.
Qed.

Lemma legacy_tick_clock (s s' : tester W) u :
  legacy_tick s = (Ok u, s') ->
  clock (world s) + second <= clock (world s').
Proof.
  unfold legacy_tick. intros E. unfold bind at 1 in E.
  destruct (blocking _ s) as [[usage|e] s1] eqn:Eb; try discriminate.
  assert (H1 : clock (world s) + second <= clock (world s1)).
  { unfold blocking in Eb.
    destruct (psutil_cpu_percent (world s) (1 * second)) as [w' o] eqn:Ec.
    destruct o as [x|e| |signum].
    - inversion Eb; subst. simpl. apply psutil_cpu_percent_sleeps in Ec. lia.
    - discriminate.
    - discriminate.
    - pose proof (signal_handler_exits (A := Q) signum (set_world w' s)) as Hs.
      rewrite Eb in Hs. discriminate. }
  assert (H2 : clock (world s1) <= clock (world s')).
  { revert E. unfold print.
    match goal with |- ?m s1 = _ -> _ =>
      assert (K : keeps_clock m); [|intros E; exact (K _ _ _ E)] end.
    repeat keeps_clock_step. }
  lia.
Qed.

(** A loop body that takes at least one second when it completes. *)
Definition advances (tick : M W unit) : Prop :=
  forall s s' u, tick s = (Ok u, s') ->
    clock (world s) + second <= clock (world s').

(** [while self.running and (time.time() - start_time) < duration: tick]. *)
Equations? while_running (tick : M W unit) (Hadv : advances tick)
  (start_time duration : Z) (s : tester W) : result unit * tester W
  by wf (ticks_left start_time duration s) lt :=
while_running tick Hadv start_time duration s
  with inspect (keep_going start_time duration s) := {
  | exist _ false _ => (Ok tt, s);
  | exist _ true Hgo with inspect (tick s) := {
      | exist _ (Ok _, s') Htick =>
          while_running tick Hadv start_time duration s';
      | exist _ (Raise e, s') _ => (Raise e, s') } }.
Proof.
  apply Hadv in Htick.
  unfold keep_going in Hgo.
  apply andb_true_iff in Hgo. destruct Hgo as [_ Hlt].
  apply Z.ltb_lt in Hlt. unfold ticks_left, second in *.
  Z.to_euclidean_division_equations. lia.
Qed.

(** The [try] statement of [run_stress_test] with its [except] clauses,
    without the [finally] clause. *)
Definition run_stress_test_guarded
  (cpu_cores duration intensity memory_processes memory_size : Z)
  : M W unit :=
  try_except
    (sys_info <- get_system_info ;;
     (let '(physical, logical, total, available) := sys_info in
      print (SysCores physical logical) ;;
      print (SysMemory total available)) ;;
     print StartingStressTest ;;
     log INFO (StartingLog cpu_cores duration intensity) ;;
     stress_cpu cpu_cores duration intensity ;;
     (if memory_processes >? 0
      then stress_memory memory_processes memory_size
      else ret tt) ;;
     start_time <- time_time ;;
     while_running
       (monitoring_tick start_time cpu_cores
          (if memory_processes >? 0 then memory_size else 0) intensity)
       (monitoring_tick_clock start_time cpu_cores
          (if memory_processes >? 0 then memory_size else 0) intensity)
       start_time duration ;;
     (fun s =>
        if running s
        then (print CompletedSuccessfully ;;
              log INFO CompletedSuccessfully) s
        else ret tt s))
    (fun e =>
       match e with
       | KeyboardInterrupt =>
           Some (print InterruptedByUser ;; log INFO InterruptedByUser)
       | Exception err =>
           Some (print (ErrorDuringStressTest err) ;;
                 log ERROR (ErrorDuringStressTest err))
       | SystemExit _ => None
       end).

Definition run_stress_test
  (cpu_cores duration intensity memory_processes memory_size : Z)
  : M W unit :=
  try_finally
    (run_stress_test_guarded cpu_cores duration intensity memory_processes
       memory_size)
    cleanup_processes.

End TimedLoops.

(* ===================================================================== *)
(** * [validate_args] and [__main__] *)
(* ===================================================================== *)

(** The [argparse.Namespace] that [parse_args] returns. *)
Module Namespace.
Record t : Type := mk {
  cores : Z;
  time : Z;
  intensity : Z;
  memory_processes : Z;
  memory_size : Z;
  cpu_only : bool
}.
End Namespace.

Section Program.

Context {W : Type} `{HW : Host W}.

Definition value_error {A} (msg : string) : M W A :=
  raise (Exception (mkError ValueError msg)).

(** [multiprocessing.cpu_count()] has already answered when the parser
    computed the default of [--cores]. *)
Definition validate_args (a : Namespace.t) : M W unit :=
  if Namespace.cores a <=? 0 then
    value_error "Number of cores must be positive"
  else if Namespace.time a <=? 0 then
    value_error "Duration must be positive"
  else if Namespace.intensity a <=? 0 then
    value_error "Intensity must be positive"
  else if Namespace.memory_processes a <? 0 then
    value_error "Memory processes cannot be negative"
  else if Namespace.memory_size a <=? 0 then
    value_error "Memory size must be positive"
  else
    (fun s =>
       if Namespace.cores a >? mp_cpu_count (world s)
       then print (WarnCores (Namespace.cores a) (mp_cpu_count (world s))) s
       else ret tt s) ;;
    if (Namespace.memory_processes a >? 0) && (Namespace.memory_size a >? 1000)
    then print (WarnMemory (Namespace.memory_size a))
    else ret tt.

(** The branch [if args.cpu_only:]. *)
Definition legacy_mode (a : Namespace.t) : M W unit :=
  print (LegacyBanner (Namespace.cores a) (Namespace.time a)
           (Namespace.intensity a)) ;;
  CPUStressTester ;;
  stress_cpu (Namespace.cores a) (Namespace.time a) (Namespace.intensity a) ;;
  start_time <- time_time ;;
  while_running legacy_tick legacy_tick_clock start_time (Namespace.time a) ;;
  cleanup_processes ;;
  print LegacyFinished.

(** The branch [else:]. *)
Definition advanced_mode (a : Namespace.t) : M W unit :=
  CPUStressTester ;;
  print AdvancedBanner ;;
  print ConfigHeader ;;
  print (ConfigCores (Namespace.cores a)) ;;
  print (ConfigDuration (Namespace.time a)) ;;
  print (ConfigIntensity (Namespace.intensity a)) ;;
  (if Namespace.memory_processes a >? 0
   then print (ConfigMemProcesses (Namespace.memory_processes a)) ;;
        print (ConfigMemSize (Namespace.memory_size a))
   else ret tt) ;;
  print BlankLine ;;
  run_stress_test (Namespace.cores a) (Namespace.time a)
    (Namespace.intensity a) (Namespace.memory_processes a)
    (Namespace.memory_size a).

(** The [try] statement of the [__main__] block, after [parse_args]. *)
Definition main (a : Namespace.t) : M W unit :=
  try_except
    (validate_args a ;;
     if Namespace.cpu_only a then legacy_mode a else advanced_mode a)
    (fun e =>
       match e with
       | Exception (mkError ValueError _ as err) =>
           Some (print (InvalidArgument err) ;; sys_exit 1)
       | KeyboardInterrupt =>
           Some (print MainInterrupted ;; sys_exit 0)
       | Exception err =>
           Some (print (UnexpectedError err) ;; sys_exit 1)
       | SystemExit _ => None
       end).

(** The exit status of the interpreter: 0 when the script ends, the
    argument of [sys.exit], 1 after a traceback. *)
Definition exit_status (r : result unit) : Z :=
  match r with
  | Ok _ => 0
  | Raise (SystemExit code) => code
  | Raise _ => 1
  end.

(** The state in which the script starts. *)
Definition boot (w : W) : tester W := mkTester w [] [] true 0 [].

Definition run_program (w : W) (a : Namespace.t) : Z * tester W :=
  let (r, s) := main a (boot w) in (exit_status r, s).

End Program.

(* ===================================================================== *)
(** * A simulated host *)
(* ===================================================================== *)

(** A small deterministic host on which the program can be run: a clock,
    the set of live workers, the workers whose start fails, the workers
    that ignore a graceful terminate, and what [psutil.cpu_percent] does as
    a function of the time of the call. *)
Module Sim.

Record world : Type := mk {
  now : Z;
  alive : list nat;
  failing : list nat;
  stubborn : list nat;
  cpu : Z -> outcome Q
}.

Definition member (n : nat) (l : list nat) : bool := existsb (Nat.eqb n) l.

Definition without (n : nat) (l : list nat) : list nat :=
  filter (fun m => negb (Nat.eqb n m)) l.

Definition at_time (t : Z) (w : world) : world :=
  mk t (alive w) (failing w) (stubborn w) (cpu w).

Definition with_alive (l : list nat) (w : world) : world :=
  mk (now w) l (failing w) (stubborn w) (cpu w).

Definition start (w : world) (p : Process) : world * option error :=
  if member (ident p) (failing w)
  then (w, Some (mkError OSError "Resource temporarily unavailable"))
  else (with_alive (ident p :: alive w) w, None).

Definition terminate (w : world) (p : Process) : world * option error :=
  if member (ident p) (stubborn w)
  then (w, None)
  else (with_alive (without (ident p) (alive w)) w, None).

Definition kill (w : world) (p : Process) : world * option error :=
  (with_alive (without (ident p) (alive w)) w, None).

Definition memory : vmem := mkVmem 16000000000 8000000000 8000000000 50.

#[local, refine] Instance platform : Platform world := {|
  mp_cpu_count := fun _ => 4;
  proc_start := start;
  proc_is_alive := fun w p => (w, inr (member (ident p) (alive w)));
  proc_terminate := terminate;
  proc_join := fun w _ _ => (w, None);
  proc_kill := kill;
  logging_setup := fun w => (w, None);
  clock := now;
  time_sleep := fun w t => (at_time (now w + Z.max 0 t) w, Returned tt);
  psutil_cpu_count := fun w logical =>
    (w, Returned (Some (if logical then 4 else 2)));
  psutil_virtual_memory := fun w => (w, Returned memory);
  psutil_cpu_percent := fun w t => (at_time (now w + Z.max 0 t) w, cpu w (now w));
  psutil_cpu_percent_percpu := fun w t =>
    (at_time (now w + Z.max 0 t) w, Returned [100%Q; 45%Q; 0%Q; 100%Q]);
  psutil_has_sensors := fun _ => false;
  psutil_sensors_temperatures := fun w => (w, Returned [])
|}.
Proof.
  all: intros; match goal with H : _ = (_, _) |- _ => inversion H; subst end;
    cbn [now at_time]; lia.
Defined.

#[global] Instance host : Host world := {|
  host_platform := platform;
  proc_is_alive_answers := fun w p =>
    ex_intro _ w (ex_intro _ (member (ident p) (alive w)) eq_refl)
|}.

(** A host at time 0 with no worker, where every call succeeds and the
    processors are busy. *)
Definition calm : world := mk 0 [] [] [] (fun _ => Returned 100%Q).

(** The same host, except that the start of the second worker fails. *)
Definition second_start_fails : world :=
  mk 0 [] [1%nat] [] (fun _ => Returned 100%Q).

(** The same host, except that [psutil.cpu_percent] fails. *)
Definition poll_fails : world :=
  mk 0 [] [] [] (fun _ => Failed (mkError RuntimeError "no such file")).

(** The same host, except that a SIGINT arrives during the first call of
    [psutil.cpu_percent]. *)
Definition interrupted : world := mk 0 [] [] [] (fun _ => Signalled 2).

(** The same host, except that the first call of [psutil.cpu_percent]
    raises [KeyboardInterrupt]. *)
Definition keyboard : world := mk 0 [] [] [] (fun _ => Interrupted).

(** Two workers for two seconds, no memory worker. *)
Definition two_cores (legacy : bool) : Namespace.t :=
  Namespace.mk 2 2 1 0 100 legacy.

End Sim.

(** The same host as a worker forked from the main process sees it.  The
    worker inherits the tester, with the handles tracked at the fork, and
    the signal handler; it is not the parent of those workers, and
    [is_alive] fails its assertion there. *)
Module Forked.

Record world : Type := view { parent : Sim.world }.

Definition lift {A} (f : Sim.world -> Sim.world * A) (w : world)
  : world * A :=
  let (w', a) := f (parent w) in (view w', a).

Definition not_a_child : error :=
  mkError AssertionError "can only test a child process".

#[global, refine] Instance platform : Platform world := {|
  mp_cpu_count := fun _ => 4;
  proc_start := fun w p => lift (fun v => proc_start v p) w;
  proc_is_alive := fun w p => (w, inl not_a_child);
  proc_terminate := fun w p => lift (fun v => proc_terminate v p) w;
  proc_join := fun w p t => lift (fun v => proc_join v p t) w;
  proc_kill := fun w p => lift (fun v => proc_kill v p) w;
  logging_setup := fun w => lift logging_setup w;
  clock := fun w => clock (parent w);
  time_sleep := fun w t => lift (fun v => time_sleep v t) w;
  psutil_cpu_count := fun w l => lift (fun v => psutil_cpu_count v l) w;
  psutil_virtual_memory := fun w => lift psutil_virtual_memory w;
  psutil_cpu_percent := fun w t => lift (fun v => psutil_cpu_percent v t) w;
  psutil_cpu_percent_percpu := fun w t =>
    lift (fun v => psutil_cpu_percent_percpu v t) w;
  psutil_has_sensors := fun w => psutil_has_sensors (parent w);
  psutil_sensors_temperatures := fun w => lift psutil_sensors_temperatures w
|}.
Proof.
  all: unfold lift; intros [v] t; intros;
    match goal with
    | H : (let (_, _) := ?c in _) = _ |- _ =>
        destruct c as [v' o'] eqn:E; inversion H; subst
    end; cbn [parent].
  - exact (time_sleep_clock _ _ _ E).
  - exact (psutil_cpu_percent_sleeps _ _ _ _ E).
  - exact (psutil_cpu_percent_clock _ _ _ _ E).
  - exact (psutil_cpu_percent_percpu_clock _ _ _ _ E).
  - exact (psutil_virtual_memory_clock _ _ _ E).
  - exact (psutil_sensors_temperatures_clock _ _ _ E).
Defined.

(** The second worker at the moment a SIGINT reaches it: the handle of the
    first worker, started before the fork, is in its copy of the list, and
    both workers are running. *)
Definition second_worker : tester world :=
  mkTester (view (Sim.with_alive [1%nat; 0%nat] Sim.calm))
    [mkProcess 0 cpu_burn 1] [] true 2 [].

(** The third worker at that moment: its copy of the list holds the
    handles of the first two. *)
Definition third_worker : tester world :=
  mkTester (view (Sim.with_alive [2%nat; 1%nat; 0%nat] Sim.calm))
    [mkProcess 0 cpu_burn 1; mkProcess 1 cpu_burn 1] [] true 3 [].

End Forked.

(* ===================================================================== *)
(** * The specification of the shutdown protocol *)
(* ===================================================================== *)

Section Protocol.

Context {W : Type} `{HP : Platform W}.

(** The escalation protocol on one handle, as the specification words it,
    over the answers of the host: [handle_protocol p w block w'] when, from
    the world [w], the calls of [block] were made on [p], the host answered
    as [block] records, and the world is then [w'].  A handle that is not
    alive is skipped; a live one gets a graceful terminate and a wait of at
    most 2; only if it is still alive after the wait it gets a forceful
    kill and a wait without bound.  A call that fails after the first test
    ends the protocol for this handle with one error record. *)
Inductive handle_protocol (p : Process) (w : W) : list event -> W -> Prop :=
| hp_skipped w' :
    proc_is_alive w p = (w', inr false) ->
    handle_protocol p w [EvIsAlive p (inr false)] w'
| hp_graceful w1 w2 w3 w' :
    proc_is_alive w p = (w1, inr true) ->
    proc_terminate w1 p = (w2, None) ->
    proc_join w2 p (Some 2) = (w3, None) ->
    proc_is_alive w3 p = (w', inr false) ->
    handle_protocol p w
      [EvIsAlive p (inr true); EvTerminate p None; EvJoin p (Some 2) None;
       EvIsAlive p (inr false)] w'
| hp_forced w1 w2 w3 w4 w5 w' :
    proc_is_alive w p = (w1, inr true) ->
    proc_terminate w1 p = (w2, None) ->
    proc_join w2 p (Some 2) = (w3, None) ->
    proc_is_alive w3 p = (w4, inr true) ->
    proc_kill w4 p = (w5, None) ->
    proc_join w5 p None = (w', None) ->
    handle_protocol p w
      [EvIsAlive p (inr true); EvTerminate p None; EvJoin p (Some 2) None;
       EvIsAlive p (inr true); EvKill p None; EvJoin p None None] w'
| hp_terminate_failed w1 w' e :
    proc_is_alive w p = (w1, inr true) ->
    proc_terminate w1 p = (w', Some e) ->
    handle_protocol p w
      [EvIsAlive p (inr true); EvTerminate p (Some e);
       EvLog ERROR (ErrorCleaningUp e)] w'
| hp_wait_failed w1 w2 w' e :
    proc_is_alive w p = (w1, inr true) ->
    proc_terminate w1 p = (w2, None) ->
    proc_join w2 p (Some 2) = (w', Some e) ->
    handle_protocol p w
      [EvIsAlive p (inr true); EvTerminate p None; EvJoin p (Some 2) (Some e);
       EvLog ERROR (ErrorCleaningUp e)] w'
| hp_retest_failed w1 w2 w3 w' e :
    proc_is_alive w p = (w1, inr true) ->
    proc_terminate w1 p = (w2, None) ->
    proc_join w2 p (Some 2) = (w3, None) ->
    proc_is_alive w3 p = (w', inl e) ->
    handle_protocol p w
      [EvIsAlive p (inr true); EvTerminate p None; EvJoin p (Some 2) None;
       EvIsAlive p (inl e); EvLog ERROR (ErrorCleaningUp e)] w'
| hp_kill_failed w1 w2 w3 w4 w' e :
    proc_is_alive w p = (w1, inr true) ->
    proc_terminate w1 p = (w2, None) ->
    proc_join w2 p (Some 2) = (w3, None) ->
    proc_is_alive w3 p = (w4, inr true) ->
    proc_kill w4 p = (w', Some e) ->
    handle_protocol p w
      [EvIsAlive p (inr true); EvTerminate p None; EvJoin p (Some 2) None;
       EvIsAlive p (inr true); EvKill p (Some e);
       EvLog ERROR (ErrorCleaningUp e)] w'
| hp_confirm_failed w1 w2 w3 w4 w5 w' e :
    proc_is_alive w p = (w1, inr true) ->
    proc_terminate w1 p = (w2, None) ->
    proc_join w2 p (Some 2) = (w3, None) ->
    proc_is_alive w3 p = (w4, inr true) ->
    proc_kill w4 p = (w5, None) ->
    proc_join w5 p None = (w', Some e) ->
    handle_protocol p w
      [EvIsAlive p (inr true); EvTerminate p None; EvJoin p (Some 2) None;
       EvIsAlive p (inr true); EvKill p None; EvJoin p None (Some e);
       EvLog ERROR (ErrorCleaningUp e)] w'.

(** A pass over the tracked handles, in order, one block of events each:
    [cleanup_run ps w blocks w' None] when every handle of [ps] went
    through the protocol; [cleanup_run ps w blocks w' (Some e)] when the
    first test [is_alive] of a handle raised [e], which ends the pass: the
    last block is that call, the handles after it are not touched. *)
Inductive cleanup_run : list Process -> W -> list (list event) -> W ->
                        option error -> Prop :=
| run_done w : cleanup_run [] w [] w None
| run_next p ps w block w1 blocks w' r :
    handle_protocol p w block w1 ->
    cleanup_run ps w1 blocks w' r ->
    cleanup_run (p :: ps) w (block :: blocks) w' r
| run_stopped p ps w w' e :
    proc_is_alive w p = (w', inl e) ->
    cleanup_run (p :: ps) w [[EvIsAlive p (inl e)]] w' (Some e).

(** The outcome of starting, one after the other, [n] handles of a kind
    constructed from rank [c] on: how many started before a start failed
    or all were started, the error of the start that failed, and the world
    after the last call. *)
Fixpoint start_each (kind : workload) (arg : Z) (c n : nat) (w : W)
  : nat * option error * W :=
  match n with
  | O => (O, None, w)
  | S n' =>
      match proc_start w (mkProcess c kind arg) with
      | (w', None) =>
          let '(k, r, w'') := start_each kind arg (S c) n' w' in
          (S k, r, w'')
      | (w', Some e) => (O, Some e, w')
      end
  end.

End Protocol.

Section Vocabulary.

Context {W : Type} `{HW : Host W}.

(** The list that tracks the workers of a kind, and the other one. *)
Definition tracked (kind : workload) (s : tester W) : list Process :=
  match kind with
  | cpu_burn => processes s
  | memory_burn_worker => memory_processes s
  end.

Definition untracked (kind : workload) (s : tester W) : list Process :=
  match kind with
  | cpu_burn => memory_processes s
  | memory_burn_worker => processes s
  end.

Definition append_tracked (kind : workload) (p : Process) : M W unit :=
  match kind with
  | cpu_burn => append_process p
  | memory_burn_worker => append_memory_process p
  end.

(** [stress_cpu] and [stress_memory], by the kind of worker they spawn. *)
Definition stress (kind : workload) (n duration arg : Z) : M W unit :=
  match kind with
  | cpu_burn => stress_cpu n duration arg
  | memory_burn_worker => stress_memory n arg
  end.

Definition error_starting (kind : workload) (e : error) : text :=
  match kind with
  | cpu_burn => ErrorStartingCpu e
  | memory_burn_worker => ErrorStartingMemory e
  end.

(** The [k] handles constructed from rank [c] on. *)
Definition spawned (kind : workload) (arg : Z) (c k : nat) : list Process :=
  map (fun i => mkProcess i kind arg) (seq c k).

Definition spawn_one (kind : workload) (arg : Z) : M W unit :=
  p <- new_Process kind arg ;;
  start p ;;
  append_tracked kind p.

(** The only [SystemExit] the program raises outside of [__main__] is the
    [sys.exit(0)] of [signal_handler]. *)
Definition exits_with_0 {A} (r : result A) : Prop :=
  match r with
  | Raise (SystemExit code) => code = 0
  | _ => True
  end.

(** The arguments that [validate_args] is to reject. *)
Definition invalid (a : Namespace.t) : bool :=
  (Namespace.cores a <=? 0)
  || (Namespace.time a <=? 0)
  || (Namespace.intensity a <=? 0)
  || (Namespace.memory_processes a <? 0)
  || (Namespace.memory_size a <=? 0).

(** [m] only appends to the trace, and leaves by [SystemExit] with code 0
    only. *)
Definition sound {A} (m : M W A) : Prop :=
  forall s r s', m s = (r, s') ->
    (exists new, trace s' = trace s ++ new) /\ exits_with_0 r.

Definition is_cleanup (ev : event) : bool :=
  match ev with
  | EvCleanup => true
  | _ => false
  end.

End Vocabulary.

Arguments sound W {A} m.

(** The filled segments of a bar. *)
Definition is_filled (g : segment) : bool :=
  match g with
  | filled => true
  | empty => false
  end.

Definition filled_count (bar : list segment) : nat :=
  length (filter is_filled bar).

(** The events that [signal_handler] and [cleanup_processes] emit. *)
Definition shutdown_event (ev : event) : bool :=
  match ev with
  | EvCleanup
  | EvIsAlive _ _
  | EvTerminate _ _
  | EvJoin _ _ _
  | EvKill _ _
  | EvLog ERROR (ErrorCleaningUp _)
  | EvLog INFO AllCleanedUp
  | EvPrint InterruptReceived
  | EvLog INFO InterruptSignalReceived => true
  | _ => false
  end.

(** One rendering of the dashboard clears the screen once. *)
Definition is_clear (ev : event) : bool :=
  match ev with
  | EvClearScreen => true
  | _ => false
  end.

Definition renders (evs : list event) : nat := length (filter is_clear evs).

(** A call of [start] on a memory worker. *)
Definition is_memory_start (ev : event) : bool :=
  match ev with
  | EvStart (mkProcess _ memory_burn_worker _) _ => true
  | _ => false
  end.

(** A call on a worker handle. *)
Definition is_handle_call (ev : event) : bool :=
  match ev with
  | EvStart _ _ | EvIsAlive _ _ | EvTerminate _ _ | EvJoin _ _ _
  | EvKill _ _ => true
  | _ => false
  end.

(** The workers that [run_stress_test] is to start: CPU workers with the
    intensity as argument and, when memory workers are requested, memory
    workers with the size as argument. *)
Definition expected_start (intensity mem_procs mem_size : Z) (ev : event)
  : bool :=
  match ev with
  | EvStart (mkProcess _ cpu_burn a) _ => a =? intensity
  | EvStart (mkProcess _ memory_burn_worker a) _ =>
      (0 <? mem_procs) && (a =? mem_size)
  | _ => true
  end.

Definition not_clear (ev : event) : bool := negb (is_clear ev).

Section MoreVocabulary.

Context {W : Type}.

(** A statement of a constructed tester is orderly for [P] when it only
    appends events that satisfy [P], keeps the flag [running] unless it
    leaves by [SystemExit], and leaves by [SystemExit] only after
    [signal_handler] has run: the flag is then cleared, nothing is tracked,
    and the handler has printed its message and cleaned up. *)
Definition orderly (P : event -> bool) {A} (m : M W A) : Prop :=
  forall s r s', m s = (r, s') ->
    exists new,
      trace s' = trace s ++ new
      /\ forallb P new = true
      /\ match r with
         | Raise (SystemExit _) =>
             running s' = false
             /\ processes s' = []
             /\ memory_processes s' = []
             /\ In (EvPrint InterruptReceived) new
             /\ In EvCleanup new
         | _ => running s' = running s
         end.

(** [m] renders the dashboard at most [n] times. *)
Definition within (n : nat) {A} (m : M W A) : Prop :=
  forall s r s', m s = (r, s') ->
    exists new, trace s' = trace s ++ new /\ (renders new <= n)%nat.

End MoreVocabulary.

Arguments orderly W P {A} m.
Arguments within W n {A} m.


(** A line written to the terminal. *)
Definition is_print (ev : event) : bool :=
  match ev with
  | EvPrint _ => true
  | _ => false
  end.

Definition any_event (ev : event) : bool := true.

(** The two records, one printed and one logged, with which
    [run_stress_test] reports how the run ended. *)
Definition report (l : level) (t : text) : list event :=
  [EvPrint t; EvLog l t].

Section Reports.

Context {W : Type}.

(** From a state where [running] is set, when [m] returns, [running] is
    still set and the last events are [fin]. *)
Definition concludes (fin : list event) (m : M W unit) : Prop :=
  forall s s', running s = true -> m s = (Ok tt, s') ->
    running s' = true /\ exists before, trace s' = trace s ++ before ++ fin.

End Reports.

Arguments concludes : clear implicits.

Section Suite.

Context {W : Type} `{HW : Host W}.

(** The suite of the [try] statement of [run_stress_test], and its
    [except] clauses. *)
Definition run_stress_test_suite
  (cpu_cores duration intensity memory_processes memory_size : Z)
  : M W unit :=
  sys_info <- get_system_info ;;
  (let '(physical, logical, total, available) := sys_info in
   print (SysCores physical logical) ;;
   print (SysMemory total available)) ;;
  print StartingStressTest ;;
  log INFO (StartingLog cpu_cores duration intensity) ;;
  stress_cpu cpu_cores duration intensity ;;
  (if memory_processes >? 0
   then stress_memory memory_processes memory_size
   else ret tt) ;;
  start_time <- time_time ;;
  while_running
    (monitoring_tick start_time cpu_cores
       (if memory_processes >? 0 then memory_size else 0) intensity)
    (monitoring_tick_clock start_time cpu_cores
       (if memory_processes >? 0 then memory_size else 0) intensity)
    start_time duration ;;
  (fun s =>
     if running s
     then (print CompletedSuccessfully ;;
           log INFO CompletedSuccessfully) s
     else ret tt s).

Definition run_stress_test_handlers (e : exn) : option (M W unit) :=
  match e with
  | KeyboardInterrupt =>
      Some (print InterruptedByUser ;; log INFO InterruptedByUser)
  | Exception err =>
      Some (print (ErrorDuringStressTest err) ;;
            log ERROR (ErrorDuringStressTest err))
  | SystemExit _ => None
  end.

End Suite.

(* ===================================================================== *)
(** * Properties of [memory_burn] *)
(* ===================================================================== *)

Section MemoryBurnFacts.

Variable size_mb : Z.
Variable alloc_fails : nat -> bool.
Variable sample : nat -> nat -> nat -> list nat.

(** The retained chunks are the [length (data st)] youngest ones, oldest
    first. *)
Definition youngest_retained (st : burn_state) : Prop :=
  map born (data st)
  = seq (allocated st - length (data st)) (length (data st))
  /\ (length (data st) <= allocated st)%nat.

Lemma allocate_spec (n : nat) (st st' : burn_state) :
  allocate alloc_fails n st = Some st' ->
  youngest_retained st ->
  youngest_retained st'
  /\ length (data st') = (length (data st) + n)%nat
  /\ allocated st' = (allocated st + n)%nat
  /\ cycles st' = cycles st.
Proof.
  revert st. induction n as [|n IH]; simpl; intros st E Hy.
  - inversion E; subst. repeat split; try apply Hy; lia.
  - destruct (alloc_fails (allocated st)); [discriminate|].
    apply IH in E.
    + simpl in E. rewrite length_app in E. simpl in E.
      destruct E as (Hy' & Hl & Ha & Hc). repeat split; try apply Hy'; lia.
    + destruct Hy as [Hm Hle]. unfold youngest_retained. simpl.
      rewrite map_app, length_app. simpl. split; [|lia].
      rewrite Hm. rewrite Nat.add_1_r, seq_S.
      replace (S (allocated st) - S (length (data st)))%nat
        with (allocated st - length (data st))%nat by lia.
      f_equal. simpl. f_equal. lia.
Qed.

Lemma touch_at_born picks pos l :
  map born (touch_at picks pos l) = map born l.
Proof.
  revert pos. induction l as [|c l IH]; simpl; intros pos; [reflexivity|].
  rewrite IH. destruct (existsb _ _); reflexivity.
Qed.

Lemma touch_at_length picks pos l :
  length (touch_at picks pos l) = length l.
Proof.
  rewrite <- (length_map born), touch_at_born. apply length_map.
Qed.

Lemma modify_existing_spec (st : burn_state) :
  map born (data (modify_existing sample st)) = map born (data st)
  /\ allocated (modify_existing sample st) = allocated st
  /\ cycles (modify_existing sample st) = cycles st.
Proof.
  unfold modify_existing. destruct (data st) as [|c l] eqn:E; simpl.
  - rewrite E. auto.
  - rewrite touch_at_born. destruct (existsb _ _); auto.
Qed.

Lemma py_slice_from_nonneg {A} (i : Z) (l : list A) :
  0 <= i -> py_slice_from i l = skipn (Z.to_nat i) l.
Proof.
  intros Hi. unfold py_slice_from.
  destruct (i <? 0) eqn:E; [apply Z.ltb_lt in E; lia|].
  destruct (Z.le_gt_cases i (Z.of_nat (length l))).
  - rewrite Z.min_l by lia. reflexivity.
  - rewrite Z.min_r by lia. rewrite Nat2Z.id.
    rewrite !skipn_all2; try lia. reflexivity.
Qed.

Lemma map_born_skipn k (l : list chunk) a :
  map born l = seq a (length l) ->
  map born (skipn k l) = seq (a + Nat.min k (length l)) (length l - k).
Proof.
  intros H. rewrite <- skipn_map, H, skipn_seq.
  destruct (Nat.le_gt_cases k (length l)).
  - rewrite Nat.min_l by lia. f_equal; lia.
  - replace (length l - k)%nat with 0%nat by lia. reflexivity.
Qed.

Lemma memory_burn_cycle_spec (st st' : burn_state) :
  0 < size_mb ->
  memory_burn_cycle size_mb alloc_fails sample st = Some st' ->
  youngest_retained st ->
  let k := Z.to_nat size_mb in
  youngest_retained st'
  /\ allocated st' = (allocated st + k)%nat
  /\ cycles st' = S (cycles st)
  /\ length (data st')
     = (if (2 * k <? length (data st) + k)%nat
        then length (data st) else length (data st) + k)%nat.
Proof.
  intros Hpos E Hy k. unfold memory_burn_cycle in E.
  destruct (allocate alloc_fails (Z.to_nat size_mb) st) as [st1|] eqn:Ea;
    [|discriminate].
  apply allocate_spec in Ea; [|exact Hy].
  destruct Ea as ((Hm1 & Hle1) & Hl1 & Ha1 & Hc1).
  destruct (modify_existing_spec st1) as (Hm2 & Ha2 & Hc2).
  set (st2 := modify_existing sample st1) in *.
  assert (Hl2 : length (data st2) = length (data st1)).
  { rewrite <- (length_map born), Hm2. apply length_map. }
  inversion E; subst st'; clear E. cbn [data allocated cycles].
  unfold clear_some, youngest_retained.
  destruct (Z.of_nat (length (data st2)) >? size_mb * 2) eqn:Egt.
  - apply Z.gtb_lt in Egt. cbn [data allocated cycles].
    rewrite py_slice_from_nonneg by lia. fold k.
    assert (Hk : (2 * k < length (data st) + k)%nat) by lia.
    apply Nat.ltb_lt in Hk as Hkb. rewrite Hkb.
    rewrite length_skipn.
    rewrite (map_born_skipn k (data st2) (allocated st1 - length (data st1))).
    + rewrite Hl2. repeat split; try lia.
      f_equal; lia.
    + rewrite Hm2, Hl2. exact Hm1.
  - assert (Hk : ~ (2 * k < length (data st) + k)%nat).
    { intros Hlt. assert (Z.of_nat (length (data st2)) > size_mb * 2) by lia.
      apply Z.gtb_gt in H. congruence. }
    apply Nat.ltb_nlt in Hk. fold k. rewrite Hk.
    cbn [data allocated cycles].
    rewrite Hm2, Hl2. repeat split; try lia; try assumption.
    rewrite Ha2. exact Hm1.
Qed.

(** After [n] cycles: the youngest chunks are retained, and how many. *)
Lemma memory_burn_invariant (n : nat) (st : burn_state) :
  0 < size_mb ->
  memory_burn size_mb alloc_fails sample n = Some st ->
  youngest_retained st
  /\ length (data st) = (Nat.min n 2 * Z.to_nat size_mb)%nat
  /\ allocated st = (n * Z.to_nat size_mb)%nat.
Proof.
  intros Hpos. revert st. induction n as [|n IH]; simpl; intros st E.
  - inversion E; subst. simpl. repeat split; auto.
  - destruct (memory_burn size_mb alloc_fails sample n) as [st0|];
      [|discriminate].
    destruct (IH st0 eq_refl) as (Hy & Hl & Ha).
    destruct (memory_burn_cycle_spec st0 st Hpos E Hy) as (Hy' & Ha' & _ & Hl').
    split; [exact Hy'|]. split; [|lia].
    rewrite Hl', Hl. clear - Hpos.
    set (k := Z.to_nat size_mb). assert (0 < k)%nat by (subst k; lia).
    destruct n as [|[|n]].
    + change (Nat.min 0 2) with 0%nat. change (Nat.min 1 2) with 1%nat.
      destruct (Nat.ltb_spec (2 * k) (0 * k + k)); lia.
    + change (Nat.min 1 2) with 1%nat. change (Nat.min 2 2) with 2%nat.
      destruct (Nat.ltb_spec (2 * k) (1 * k + k)); lia.
    + rewrite !(Nat.min_r _ 2) by lia.
      destruct (Nat.ltb_spec (2 * k) (2 * k + k)); lia.
Qed.

(** C6.  For every [size_mb > 0] the list that [memory_burn] retains from
    one cycle to the next never holds more than [2 * size_mb] chunks: after
    [n] cycles it holds [min n 2 * size_mb] of them, and they are the
    youngest ones in allocation order, so what the cut discards once the
    count exceeds [2 * size_mb] is the oldest [size_mb] chunks. *)
Theorem memory_burn_bounded_growth (n : nat) (st : burn_state) :
  0 < size_mb ->
  memory_burn size_mb alloc_fails sample n = Some st ->
  Z.of_nat (length (data st)) <= 2 * size_mb
  /\ length (data st) = (Nat.min n 2 * Z.to_nat size_mb)%nat
  /\ allocated st = (n * Z.to_nat size_mb)%nat
  /\ map born (data st)
     = seq (allocated st - length (data st)) (length (data st)).
Proof.
  intros Hpos E.
  destruct (memory_burn_invariant n st Hpos E) as ((Hm & _) & Hl & Ha).
  repeat split; auto. rewrite Hl.
  assert (Nat.min n 2 <= 2)%nat by lia. nia.
Qed.

(** Inside a cycle, between the allocations and the cut, the list holds up
    to [3 * size_mb] chunks. *)
Remark memory_burn_peak (n : nat) (st st1 : burn_state) :
  0 < size_mb ->
  memory_burn size_mb alloc_fails sample (S (S n)) = Some st ->
  allocate alloc_fails (Z.to_nat size_mb) st = Some st1 ->
  Z.of_nat (length (data st1)) = 3 * size_mb.
Proof.
  intros Hpos E Ea.
  destruct (memory_burn_invariant _ st Hpos E) as (Hy & Hl & _).
  apply allocate_spec in Ea; [|exact Hy]. destruct Ea as (_ & Hl1 & _).
  rewrite Hl1, Hl, (Nat.min_r _ 2) by lia. lia.
Qed.

(** While no allocation fails the worker keeps running. *)
Lemma memory_burn_runs (n : nat) :
  (forall k, alloc_fails k = false) ->
  exists st, memory_burn size_mb alloc_fails sample n = Some st.
Proof.
  intros Hok.
  assert (Ha : forall k st, exists st', allocate alloc_fails k st = Some st').
  { induction k as [|k IH]; simpl; intros st; [eauto|].
    rewrite Hok. apply IH. }
  induction n as [|n [st E]]; simpl; [eauto|].
  rewrite E. unfold memory_burn_cycle.
  destruct (Ha (Z.to_nat size_mb) st) as [st1 E1]. rewrite E1. eauto.
Qed.

End MemoryBurnFacts.

Lemma memory_burn_bounded_growth_witness :
  exists st,
    memory_burn 2 (fun _ => false) (fun _ _ k => seq 0 k) 5 = Some st
    /\ Z.of_nat (length (data st)) <= 2 * 2.
Proof.
  eexists. split; [vm_compute; reflexivity|].
  apply (memory_burn_bounded_growth 2 (fun _ => false) (fun _ _ k => seq 0 k) 5);
    [lia | reflexivity].
Defined.

(* ===================================================================== *)
(** * Properties of the dashboard bar *)
(* ===================================================================== *)

Lemma py_int_nonneg (x : Q) : (0 <= x)%Q -> py_int x = Qfloor x.
Proof.
  destruct x as [a b]. unfold Qle, py_int, Qfloor. simpl. intros H.
  apply Z.quot_div_nonneg; lia.
Qed.

Lemma bar_length_floor (usage : Q) :
  (0 <= usage)%Q -> bar_length usage = Qfloor (usage / 5).
Proof.
  intros H. unfold bar_length. apply py_int_nonneg.
  apply Qle_shift_div_l; [reflexivity|]. rewrite Qmult_0_l. exact H.
Qed.

Lemma bar_length_range (usage : Q) :
  (0 <= usage)%Q -> (usage <= 100)%Q -> 0 <= bar_length usage <= 20.
Proof.
  intros Hlo Hhi. rewrite bar_length_floor by exact Hlo.
  split.
  - change 0 with (Qfloor 0). apply Qfloor_resp_le.
    apply Qle_shift_div_l; [reflexivity|]. rewrite Qmult_0_l. exact Hlo.
  - change 20 with (Qfloor 20). apply Qfloor_resp_le.
    apply Qle_shift_div_r; [reflexivity|]. exact Hhi.
Qed.

(** C7.  For every usage percentage (a value between 0 and 100) the bar is
    [floor(usage / 5)] filled segments followed by empty ones, 20 segments
    in all, and the number of filled segments lies in [0, 20]; the bar of 0
    is all empty, the bar of 100 all filled, and the bar of 45 has 9 filled
    segments. *)
Theorem render_bar_segments (usage : Q) :
  (0 <= usage)%Q -> (usage <= 100)%Q ->
  let n := Qfloor (usage / 5) in
  0 <= n <= 20
  /\ render_bar usage
     = repeat filled (Z.to_nat n) ++ repeat empty (20 - Z.to_nat n)
  /\ length (render_bar usage) = 20%nat
  /\ render_bar 0 = repeat empty 20
  /\ render_bar 100 = repeat filled 20
  /\ render_bar 45 = repeat filled 9 ++ repeat empty 11.
Proof.
  intros Hlo Hhi n.
  pose proof (bar_length_range usage Hlo Hhi) as Hr.
  pose proof (bar_length_floor usage Hlo) as Hf. fold n in Hf.
  assert (Hbar : render_bar usage
     = repeat filled (Z.to_nat n) ++ repeat empty (20 - Z.to_nat n)).
  { unfold render_bar, py_repeat. rewrite Hf. f_equal. f_equal. lia. }
  repeat split; try reflexivity; try lia.
  - exact Hbar.
  - rewrite Hbar, length_app, !repeat_length. lia.
Qed.

Lemma render_bar_segments_witness :
  render_bar (453 # 10) = repeat filled 9 ++ repeat empty 11.
Proof.
  destruct (render_bar_segments (453 # 10)) as (_ & H & _).
  - unfold Qle; simpl; lia.
  - unfold Qle; simpl; lia.
  - exact H.
Defined.

(** The code has no clamp of its own: outside the range of a percentage
    the bar is longer than 20 segments. *)
Lemma render_bar_above_100 : length (render_bar 105) = 21%nat.
Proof. reflexivity. Qed.

Lemma render_bar_below_0 : render_bar (-5) = repeat empty 21.
Proof. reflexivity. Qed.

(* ===================================================================== *)
(** * [cleanup_processes] in any process *)
(* ===================================================================== *)

Section CleanupFacts.

Context {W : Type} `{HP : Platform W}.

Ltac host_answer :=
  match goal with
  | |- context [proc_is_alive ?w ?p] =>
      destruct (proc_is_alive w p) as [? [?|[]]] eqn:?
  | |- context [proc_terminate ?w ?p] =>
      destruct (proc_terminate w p) as [? [?|]] eqn:?
  | |- context [proc_join ?w ?p ?t] =>
      destruct (proc_join w p t) as [? [?|]] eqn:?
  | |- context [proc_kill ?w ?p] =>
      destruct (proc_kill w p) as [? [?|]] eqn:?
  end.

(** [cleanup_one] either takes its handle through the protocol, or raises
    what the first [is_alive] raised, having made no other call. *)
Lemma cleanup_one_cases p (s : tester W) :
  exists r s' block,
    cleanup_one p s = (r, s')
    /\ processes s' = processes s
    /\ memory_processes s' = memory_processes s
    /\ running s' = running s
    /\ created s' = created s
    /\ trace s' = trace s ++ block
    /\ ((r = Ok tt /\ handle_protocol p (world s) block (world s'))
        \/ (exists e,
              r = Raise (Exception e)
              /\ proc_is_alive (world s) p = (world s', inl e)
              /\ block = [EvIsAlive p (inl e)])).
Proof.
  unfold cleanup_one, bind, is_alive, try_except, terminate, join, kill,
    handle_call, except_Exception, log, emit, ret.
  repeat (cbn [fst snd world processes memory_processes running created trace];
          host_answer);
  do 3 eexists; (split; [reflexivity|]);
  cbn [fst snd world processes memory_processes running created trace];
  repeat rewrite <- app_assoc; cbn [app];
  repeat (split; [reflexivity|]);
  first [ left; split; [reflexivity|]; econstructor; eassumption
        | right; eexists; repeat split; eassumption ].
Qed.

Lemma for_each_cleanup_cases l (s : tester W) :
  exists r s' blocks o,
    for_each l cleanup_one s = (r, s')
    /\ processes s' = processes s
    /\ memory_processes s' = memory_processes s
    /\ running s' = running s
    /\ created s' = created s
    /\ trace s' = trace s ++ concat blocks
    /\ cleanup_run l (world s) blocks (world s') o
    /\ r = match o with
           | None => Ok tt
           | Some e => Raise (Exception e)
           end.
Proof.
  revert s. induction l as [|p l IH]; intros s; cbn [for_each].
  - exists (Ok tt), s, [], None. cbn. rewrite app_nil_r.
    repeat split; constructor.
  - destruct (cleanup_one_cases p s)
      as (r1 & s1 & b & E1 & Hp & Hm & Hr & Hc & Ht & Hcase).
    unfold bind. rewrite E1.
    destruct Hcase as [[-> Hb]|(e & -> & Ea & ->)].
    + destruct (IH s1)
        as (r2 & s2 & bs & o & E2 & Hp2 & Hm2 & Hr2 & Hc2 & Ht2 & Hrun & Ho).
      exists r2, s2, (b :: bs), o. rewrite E2.
      cbn [concat]. rewrite Ht2, Ht, <- app_assoc.
      repeat split; try congruence. econstructor; eassumption.
    + exists (Raise (Exception e)), s1, [[EvIsAlive p (inl e)]], (Some e).
      cbn [concat app]. rewrite Ht.
      repeat split; try congruence. constructor. exact Ea.
Qed.

(** [cleanup_processes] passes over the tracked handles.  When the pass
    completes, both lists are cleared and the last record is the log
    line; when the first [is_alive] of a handle raises, that exception
    leaves [cleanup_processes] and both lists are as they were. *)
Lemma cleanup_processes_cases (s : tester W) :
  exists r s' blocks o,
    cleanup_processes s = (r, s')
    /\ cleanup_run (processes s ++ memory_processes s) (world s) blocks
         (world s') o
    /\ running s' = running s
    /\ created s' = created s
    /\ match o with
       | None =>
           r = Ok tt
           /\ processes s' = [] /\ memory_processes s' = []
           /\ trace s'
              = trace s ++ [EvCleanup] ++ concat blocks
                  ++ [EvLog INFO AllCleanedUp]
       | Some e =>
           r = Raise (Exception e)
           /\ processes s' = processes s
           /\ memory_processes s' = memory_processes s
           /\ trace s' = trace s ++ [EvCleanup] ++ concat blocks
       end.
Proof.
  unfold cleanup_processes, bind at 1. unfold emit at 1.
  set (s0 := mkTester _ _ _ _ _ _).
  unfold bind at 1.
  destruct (for_each_cleanup_cases (processes s0 ++ memory_processes s0) s0)
    as (r1 & s1 & bs & o & E & Hp & Hm & Hr & Hc & Ht & Hrun & Ho).
  rewrite E. subst r1 s0.
  cbn [trace processes memory_processes world running created] in *.
  destruct o as [e|].
  - exists (Raise (Exception e)), s1, bs, (Some e).
    split; [reflexivity|].
    rewrite Ht, <- !app_assoc. repeat split; auto.
  - exists (Ok tt),
      (mkTester (world s1) [] [] (running s1) (created s1)
         (trace s1 ++ [EvLog INFO AllCleanedUp])), bs, None.
    split; [reflexivity|].
    cbn [trace processes memory_processes world running created].
    rewrite Ht, <- !app_assoc. repeat split; auto.
Qed.

(** A pass over no handle makes no call. *)
Lemma cleanup_run_nil (w w' : W) blocks o :
  cleanup_run [] w blocks w' o -> blocks = [] /\ w' = w /\ o = None.
Proof. intros H. inversion H; subst. auto. Qed.

(** Once a call of [cleanup_processes] has returned, both lists are empty,
    and a second call in a row returns too, leaves them empty and makes no
    call on the host. *)
Lemma cleanup_processes_twice (s s1 : tester W) :
  cleanup_processes s = (Ok tt, s1) ->
  processes s1 = [] /\ memory_processes s1 = []
  /\ cleanup_processes s1
     = (Ok tt,
        mkTester (world s1) [] [] (running s1) (created s1)
          (trace s1 ++ [EvCleanup; EvLog INFO AllCleanedUp])).
Proof.
  intros E.
  destruct (cleanup_processes_cases s)
    as (r & s' & bs & o & E' & _ & _ & _ & Hcase).
  rewrite E in E'. inversion E'; subst r s'; clear E'.
  destruct o as [e|]; [destruct Hcase; discriminate|].
  destruct Hcase as (_ & Hp & Hm & _).
  split; [exact Hp|]. split; [exact Hm|].
  destruct s1 as [w ps ms r c t]. cbn in Hp, Hm. subst ps ms.
  unfold cleanup_processes, bind, log, emit, clear_processes,
    clear_memory_processes, ret.
  cbn. rewrite <- ?app_assoc. reflexivity.
Qed.

End CleanupFacts.

(* ===================================================================== *)
(** * Properties of [CPUStressTester] *)
(* ===================================================================== *)

Section TesterFacts.

Context {W : Type} `{HW : Host W}.

(** In the main process every pass completes. *)
Lemma cleanup_run_completes l (w w' : W) blocks o :
  cleanup_run l w blocks w' o -> o = None.
Proof.
  induction 1 as [| |p ps w w' e Ha]; auto.
  destruct (proc_is_alive_answers w p) as (w1 & b & E). congruence.
Qed.

(** What [cleanup_one] leaves untouched, and what it appends. *)
Lemma cleanup_one_spec p (s : tester W) :
  exists s' block,
    cleanup_one p s = (Ok tt, s')
    /\ processes s' = processes s
    /\ memory_processes s' = memory_processes s
    /\ running s' = running s
    /\ created s' = created s
    /\ trace s' = trace s ++ block
    /\ handle_protocol p (world s) block (world s').
Proof.
  destruct (cleanup_one_cases p s)
    as (r & s' & b & E & Hp & Hm & Hr & Hc & Ht & Hcase).
  destruct Hcase as [[-> Hb]|(e & _ & Ea & _)].
  - exists s', b. auto 8.
  - destruct (proc_is_alive_answers (world s) p) as (w1 & a & Eb). congruence.
Qed.

Lemma for_each_cleanup_spec l (s : tester W) :
  exists s' blocks,
    for_each l cleanup_one s = (Ok tt, s')
    /\ processes s' = processes s
    /\ memory_processes s' = memory_processes s
    /\ running s' = running s
    /\ created s' = created s
    /\ trace s' = trace s ++ concat blocks
    /\ cleanup_run l (world s) blocks (world s') None.
Proof.
  destruct (for_each_cleanup_cases l s)
    as (r & s' & bs & o & E & Hp & Hm & Hr & Hc & Ht & Hrun & ->).
  pose proof (cleanup_run_completes _ _ _ _ _ Hrun) as ->.
  exists s', bs. auto 8.
Qed.

Lemma cleanup_processes_spec (s : tester W) :
  exists s' blocks,
    cleanup_processes s = (Ok tt, s')
    /\ processes s' = []
    /\ memory_processes s' = []
    /\ running s' = running s
    /\ created s' = created s
    /\ trace s'
       = trace s ++ [EvCleanup] ++ concat blocks ++ [EvLog INFO AllCleanedUp]
    /\ cleanup_run (processes s ++ memory_processes s) (world s) blocks
         (world s') None.
Proof.
  destruct (cleanup_processes_cases s)
    as (r & s' & bs & o & E & Hrun & Hr & Hc & Hcase).
  pose proof (cleanup_run_completes _ _ _ _ _ Hrun) as ->.
  destruct Hcase as (-> & Hp & Hm & Ht).
  exists s', bs. auto 8.
Qed.

(** Induction along the iterations of a timed loop. *)
Lemma while_running_ind tick Hadv start_time duration
  (P : tester W -> result unit -> tester W -> Prop) :
  (forall s, keep_going start_time duration s = false -> P s (Ok tt) s) ->
  (forall s e s',
     keep_going start_time duration s = true ->
     tick s = (Raise e, s') -> P s (Raise e) s') ->
  (forall s u s' r s'',
     keep_going start_time duration s = true ->
     tick s = (Ok u, s') ->
     while_running tick Hadv start_time duration s' = (r, s'') ->
     P s' r s'' -> P s r s'') ->
  forall s r s',
    while_running tick Hadv start_time duration s = (r, s') -> P s r s'.
Proof.
  intros Hstop Hraise Hstep s.
  funelim (while_running tick Hadv start_time duration s); intros r s1 E.
  - inversion E; subst. apply Hstop. assumption.
  - eapply Hstep; [eassumption | eassumption | exact E |].
    match goal with IH : forall P, _ |- _ => apply IH; assumption end.
  - inversion E; subst. apply Hraise; assumption.
Qed.

(* --------------------------------------------------------------------- *)
(** ** What every statement of the program preserves *)
(* --------------------------------------------------------------------- *)

Lemma bind_returned {A B} (m : M W A) (k : A -> M W B) s a s' :
  m s = (Ok a, s') -> bind m k s = k a s'.
Proof. intros E. unfold bind. rewrite E. reflexivity. Qed.

Lemma bind_raised {A B} (m : M W A) (k : A -> M W B) s e s' :
  m s = (Raise e, s') -> bind m k s = (Raise e, s').
Proof. intros E. unfold bind. rewrite E. reflexivity. Qed.

Lemma bind_assoc {A B C} (m : M W A) (k : A -> M W B) (h : B -> M W C) s :
  bind (bind m k) h s = bind m (fun a => bind (k a) h) s.
Proof. unfold bind. destruct (m s) as [[a|e] s1]; reflexivity. Qed.

Lemma sound_quiet {A} (m : M W A) :
  (forall s, trace (snd (m s)) = trace s /\ exits_with_0 (fst (m s))) ->
  sound W m.
Proof.
  intros H s r s' E. destruct (H s) as [Ht Hr]. rewrite E in Ht, Hr.
  split; [exists []; rewrite app_nil_r; exact Ht | exact Hr].
Qed.

Lemma sound_ret {A} (a : A) : sound W (ret a : M W A).
Proof. apply sound_quiet. intros s. split; [reflexivity | exact I]. Qed.

Lemma sound_raise_Exception {A} e :
  sound W (raise (Exception e) : M W A).
Proof. apply sound_quiet. intros s. split; [reflexivity | exact I]. Qed.

Lemma sound_emit ev : sound W (emit ev : M W unit).
Proof.
  intros s r s' E. inversion E; subst. split; [eexists; reflexivity | exact I].
Qed.

Lemma sound_bind {A B} (m : M W A) (k : A -> M W B) :
  sound W m -> (forall a, sound W (k a)) -> sound W (bind m k).
Proof.
  intros Hm Hk s r s' E. unfold bind in E.
  destruct (m s) as [[a|e] s1] eqn:Em.
  - destruct (Hm _ _ _ Em) as [[n1 H1] _].
    destruct (Hk a _ _ _ E) as [[n2 H2] Hr].
    split; [|exact Hr].
    exists (n1 ++ n2). rewrite H2, H1, app_assoc. reflexivity.
  - inversion E; subst. exact (Hm _ _ _ Em).
Qed.

Lemma sound_try_except {A} (m : M W A) (h : exn -> option (M W A)) :
  sound W m -> (forall e k, h e = Some k -> sound W k) ->
  sound W (try_except m h).
Proof.
  intros Hm Hh s r s' E. unfold try_except in E.
  destruct (m s) as [[a|e] s1] eqn:Em.
  - inversion E; subst. exact (Hm _ _ _ Em).
  - destruct (Hm _ _ _ Em) as [[n1 H1] Hr1].
    destruct (h e) as [k|] eqn:Eh.
    + destruct (Hh e k Eh _ _ _ E) as [[n2 H2] Hr].
      split; [|exact Hr].
      exists (n1 ++ n2). rewrite H2, H1, app_assoc. reflexivity.
    + inversion E; subst. split; [eauto | exact Hr1].
Qed.

Lemma sound_except_Exception {A} (m : M W A) (k : error -> M W A) :
  sound W m -> (forall e, sound W (k e)) ->
  sound W (try_except m (except_Exception k)).
Proof.
  intros Hm Hk. apply sound_try_except; [exact Hm|].
  intros [e| |c] k' E; simpl in E; inversion E; subst. apply Hk.
Qed.

Lemma sound_for_each {A} (l : list A) (body : A -> M W unit) :
  (forall x, sound W (body x)) -> sound W (for_each l body).
Proof.
  intros Hb. induction l as [|x l IH]; simpl.
  - apply sound_ret.
  - apply sound_bind; auto.
Qed.

Lemma sound_for_range (n : Z) (body : M W unit) :
  sound W body -> sound W (for_range n body).
Proof.
  intros Hb. unfold for_range. induction (Z.to_nat n) as [|k IH]; simpl.
  - apply sound_ret.
  - apply sound_bind; auto.
Qed.

Lemma sound_handle_call op ev : sound W (handle_call op ev).
Proof.
  intros s r s' E. unfold handle_call in E.
  destruct (op (world s)) as [w' [e|]]; inversion E; subst;
    (split; [eexists; reflexivity | exact I]).
Qed.

Lemma sound_cleanup_processes : sound W cleanup_processes.
Proof.
  intros s r s' E.
  destruct (cleanup_processes_spec s) as (s1 & bs & E1 & _ & _ & _ & _ & Ht & _).
  rewrite E in E1. inversion E1; subst. split; [eauto | exact I].
Qed.

Lemma sound_sys_exit_0 {A} : sound W (sys_exit 0 : M W A).
Proof. apply sound_quiet. intros s. split; reflexivity. Qed.

Lemma sound_signal_handler {A} signum :
  sound W (signal_handler (A := A) signum).
Proof.
  unfold signal_handler, print, log.
  repeat first
    [ apply sound_emit | apply sound_cleanup_processes
    | apply sound_sys_exit_0
    | apply sound_quiet; intros ?; split; [reflexivity | exact I]
    | apply sound_bind; [|intros] ].
Qed.

Lemma sound_blocking {A} (op : W -> W * outcome A) : sound W (blocking op).
Proof.
  intros s r s' E. unfold blocking in E.
  destruct (op (world s)) as [w' [a|e| |signum]].
  - inversion E; subst. split; [exists []; rewrite app_nil_r; reflexivity | exact I].
  - inversion E; subst. split; [exists []; rewrite app_nil_r; reflexivity | exact I].
  - inversion E; subst. split; [exists []; rewrite app_nil_r; reflexivity | exact I].
  - apply sound_signal_handler in E. exact E.
Qed.

Lemma sound_while_running tick Hadv start_time duration :
  sound W tick -> sound W (while_running tick Hadv start_time duration).
Proof.
  intros Ht s r s' E. revert s r s' E. apply while_running_ind.
  - intros s _. split; [exists []; rewrite app_nil_r; reflexivity | exact I].
  - intros s e s' _ E. exact (Ht _ _ _ E).
  - intros s u s' r s'' _ E _ [[n2 H2] Hr]. destruct (Ht _ _ _ E) as [[n1 H1] _].
    split; [|exact Hr].
    exists (n1 ++ n2). rewrite H2, H1, app_assoc. reflexivity.
Qed.

Ltac sound_step :=
  lazymatch goal with
  | |- sound W (bind _ _) => apply sound_bind; [|intros]
  | |- sound W (emit _) => apply sound_emit
  | |- sound W (print _) => apply sound_emit
  | |- sound W (log _ _) => apply sound_emit
  | |- sound W (ret _) => apply sound_ret
  | |- sound W (raise (Exception _)) => apply sound_raise_Exception
  | |- sound W (value_error _) => apply sound_raise_Exception
  | |- sound W (for_each _ _) => apply sound_for_each; intros
  | |- sound W (for_range _ _) => apply sound_for_range
  | |- sound W (blocking _) => apply sound_blocking
  | |- sound W (handle_call _ _) => apply sound_handle_call
  | |- sound W (start _) => apply sound_handle_call
  | |- sound W cleanup_processes => apply sound_cleanup_processes
  | |- sound W (try_except _ (except_Exception _)) =>
      apply sound_except_Exception; [|intros]
  | |- sound W (while_running _ _ _ _) => apply sound_while_running
  | |- sound W (if ?b then _ else _) => destruct b
  | |- sound W (let '(_, _) := ?x in _) => destruct x
  | |- sound W (fun s => if ?b then _ else _) =>
      let s := fresh "s" in let r := fresh "r" in let s' := fresh "s'" in
      let E := fresh "E" in
      intros s r s' E; cbv beta in E;
      match type of E with
      | (if ?c then ?m1 s else ?m2 s) = _ =>
          destruct c; revert E; generalize s r s';
          [change (sound W m1) | change (sound W m2)]
      end
  | |- sound W _ => apply sound_quiet; intros ?; split; [reflexivity | exact I]
  end.

Lemma sound_get_temperature_info : sound W get_temperature_info.
Proof. unfold get_temperature_info. repeat sound_step. Qed.

Lemma sound_display_dashboard a b c d : sound W (display_dashboard a b c d).
Proof.
  unfold display_dashboard.
  repeat first [ apply sound_get_temperature_info | sound_step ].
Qed.

Lemma sound_monitoring_tick a b c d : sound W (monitoring_tick a b c d).
Proof.
  unfold monitoring_tick.
  repeat first [ apply sound_display_dashboard | sound_step ].
Qed.

Lemma sound_legacy_tick : sound W legacy_tick.
Proof.
  unfold legacy_tick.
  repeat first [ apply sound_get_temperature_info | sound_step ].
Qed.

Lemma sound_stress_cpu a b c : sound W (stress_cpu a b c).
Proof. unfold stress_cpu. repeat sound_step. Qed.

Lemma sound_stress_memory a b : sound W (stress_memory a b).
Proof. unfold stress_memory. repeat sound_step. Qed.

Lemma sound_get_system_info : sound W get_system_info.
Proof. unfold get_system_info. repeat sound_step. Qed.

Lemma sound_CPUStressTester : sound W CPUStressTester.
Proof.
  unfold CPUStressTester. repeat sound_step.
  intros s r s' E. unfold setup_logging in E.
  destruct (logging_setup (world s)) as [w' [e|]].
  - inversion E; subst. split; [exists []; rewrite app_nil_r; reflexivity | exact I].
  - inversion E; subst. split; [eexists; reflexivity | exact I].
Qed.

(* --------------------------------------------------------------------- *)
(** ** [run_stress_test] *)
(* --------------------------------------------------------------------- *)

Lemma sound_run_stress_test_guarded a b c d e :
  sound W (run_stress_test_guarded a b c d e).
Proof.
  unfold run_stress_test_guarded. apply sound_try_except.
  - repeat first
      [ apply sound_get_system_info | apply sound_stress_cpu
      | apply sound_stress_memory | apply sound_monitoring_tick
      | sound_step ].
  - intros [err| |code] k E; inversion E; subst; repeat sound_step.
Qed.

(** The [except] clauses leave nothing but the [SystemExit] of an interrupt
    to propagate. *)
Lemma run_stress_test_guarded_result a b c d e (s : tester W) :
  fst (run_stress_test_guarded a b c d e s) = Ok tt
  \/ fst (run_stress_test_guarded a b c d e s) = Raise (SystemExit 0).
Proof.
  destruct (run_stress_test_guarded a b c d e s) as [r s1] eqn:E.
  destruct (sound_run_stress_test_guarded a b c d e s r s1 E) as [_ Hr].
  unfold run_stress_test_guarded, try_except in E.
  match type of E with
  | context [match ?m s with _ => _ end] => destruct (m s) as [[[]|x] s2]
  end.
  - inversion E; auto.
  - destruct x as [err| |code]; inversion E; subst; cbn in *; auto.
    subst code. auto.
Qed.

Lemma run_stress_test_result a b c d e (s : tester W) :
  fst (run_stress_test a b c d e s) = Ok tt
  \/ fst (run_stress_test a b c d e s) = Raise (SystemExit 0).
Proof.
  unfold run_stress_test, try_finally.
  pose proof (run_stress_test_guarded_result a b c d e s) as Hr.
  destruct (run_stress_test_guarded a b c d e s) as [r s0].
  pose proof (cleanup_processes_returns s0) as Hc.
  destruct (cleanup_processes s0) as [[[]|x] s1]; [|discriminate].
  exact Hr.
Qed.

Lemma sound_run_stress_test a b c d e : sound W (run_stress_test a b c d e).
Proof.
  intros s r s' E. unfold run_stress_test, try_finally in E.
  destruct (run_stress_test_guarded a b c d e s) as [r0 s0] eqn:E0.
  destruct (sound_run_stress_test_guarded a b c d e s r0 s0 E0)
    as [[n1 H1] Hr].
  destruct (cleanup_processes s0) as [[[]|x] s1] eqn:E1.
  - inversion E; subst.
    destruct (sound_cleanup_processes _ _ _ E1) as [[n2 H2] _].
    split; [|exact Hr]. exists (n1 ++ n2). rewrite H2, H1, app_assoc.
    reflexivity.
  - pose proof (cleanup_processes_returns s0) as Hc. rewrite E1 in Hc.
    discriminate.
Qed.


(** The loop of [stress_cpu] and [stress_memory]: [k] workers start and are
    appended; the loop then ends after [n] rounds, or the start of the next
    worker fails and its handle is dropped. *)
Lemma spawn_loop_spec kind arg (n : nat) (s : tester W) :
  exists k r s',
    repeat_body n (spawn_one kind arg) s = (r, s')
    /\ (k <= n)%nat
    /\ tracked kind s' = tracked kind s ++ spawned kind arg (created s) k
    /\ untracked kind s' = untracked kind s
    /\ running s' = running s
    /\ ((r = Ok tt /\ k = n
         /\ created s' = (created s + k)%nat
         /\ trace s'
            = trace s
              ++ map (fun p => EvStart p None) (spawned kind arg (created s) k))
        \/ (exists err,
              r = Raise (Exception err) /\ (k < n)%nat
              /\ created s' = S (created s + k)
              /\ trace s'
                 = trace s
                   ++ map (fun p => EvStart p None)
                        (spawned kind arg (created s) k)
                   ++ [EvStart (mkProcess (created s + k) kind arg)
                         (Some err)])).
Proof.
  revert s. induction n as [|n IH]; intros s.
  - exists 0%nat, (Ok tt), s. cbn. rewrite !app_nil_r.
    repeat (split; [solve [auto]|]). left. repeat split; auto.
  - cbn [repeat_body]. unfold bind at 1. unfold spawn_one at 1.
    unfold bind at 1. unfold new_Process at 1. cbn [fst snd].
    unfold bind at 1. unfold start, handle_call at 1.
    cbn [world processes memory_processes running created trace].
    destruct (proc_start (world s) (mkProcess (created s) kind arg))
      as [w' [err|]] eqn:Es.
    + exists 0%nat. eexists. eexists. split; [reflexivity|].
      cbn [tracked untracked processes memory_processes running created trace].
      split; [lia|]. unfold spawned. cbn [seq map].
      destruct kind; cbn; rewrite ?app_nil_r;
        (split; [reflexivity|]); (split; [reflexivity|]);
        (split; [reflexivity|]); right; exists err;
        rewrite Nat.add_0_r; repeat split; lia.
    + set (s1 := mkTester w' (processes s) (memory_processes s) (running s)
                   (S (created s))
                   (trace s ++ [EvStart (mkProcess (created s) kind arg) None])).
      assert (Ea : exists s2,
        append_tracked kind (mkProcess (created s) kind arg) s1 = (Ok tt, s2)
        /\ tracked kind s2
           = tracked kind s ++ [mkProcess (created s) kind arg]
        /\ untracked kind s2 = untracked kind s
        /\ running s2 = running s
        /\ created s2 = S (created s)
        /\ trace s2
           = trace s ++ [EvStart (mkProcess (created s) kind arg) None]).
      { destruct kind; eexists; (split; [reflexivity|]); cbn; auto. }
      destruct Ea as (s2 & Ea & Ht2 & Hu2 & Hr2 & Hc2 & Htr2).
      rewrite Ea.
      destruct (IH s2) as (k & r & s' & E & Hk & Ht & Hu & Hr & Hcase).
      exists (S k), r, s'. split; [exact E|]. split; [lia|].
      assert (Hsp : forall c,
        spawned kind arg c (S k)
        = mkProcess c kind arg :: spawned kind arg (S c) k).
      { intros c. reflexivity. }
      rewrite Hsp. rewrite Hc2 in *.
      split; [rewrite Ht, Ht2, <- app_assoc; reflexivity|].
      split; [congruence|]. split; [congruence|].
      destruct Hcase as [(-> & -> & Hc & Htr)|(err & -> & Hlt & Hc & Htr)].
      * left. repeat split; try lia.
        rewrite Htr, Htr2, <- app_assoc. reflexivity.
      * right. exists err. repeat split; try lia.
        rewrite Htr, Htr2, <- app_assoc. cbn [map app].
        replace (S (created s) + k)%nat with (created s + S k)%nat by lia.
        reflexivity.
Qed.

Lemma stress_unfold kind n duration arg :
  stress kind n duration arg
  = try_except
      (repeat_body (Z.to_nat n) (spawn_one kind arg) ;;
       log INFO (match kind with
                 | cpu_burn => StartedCpu n arg
                 | memory_burn_worker => StartedMemory n arg
                 end))
      (except_Exception
         (fun e => log ERROR (error_starting kind e) ;; raise (Exception e))).
Proof. destruct kind; reflexivity. Qed.

(** The loop of [stress_cpu] and [stress_memory] against the answers of
    the host: the handles are started one after the other from the world
    of the tester, as [start_each] does, and the loop stops at the first
    start that fails. *)
Lemma spawn_loop_start_each kind arg (n : nat) (s : tester W) k r w' :
  start_each kind arg (created s) n (world s) = (k, r, w') ->
  exists s',
    repeat_body n (spawn_one kind arg) s
    = (match r with
       | None => Ok tt
       | Some err => Raise (Exception err)
       end, s')
    /\ world s' = w'
    /\ (k <= n)%nat
    /\ match r with None => k = n | Some _ => (k < n)%nat end
    /\ tracked kind s' = tracked kind s ++ spawned kind arg (created s) k
    /\ untracked kind s' = untracked kind s
    /\ trace s'
       = trace s ++ map (fun p => EvStart p None)
                      (spawned kind arg (created s) k)
           ++ match r with
              | None => []
              | Some err =>
                  [EvStart (mkProcess (created s + k) kind arg) (Some err)]
              end.
Proof.
  revert s k r w'. induction n as [|n IH]; intros s k r w' E.
  - cbn in E. inversion E; subst. exists s. cbn. rewrite !app_nil_r.
    repeat split; auto.
  - cbn [start_each] in E. cbn [repeat_body].
    unfold bind at 1. unfold spawn_one at 1.
    unfold bind at 1. unfold new_Process at 1. cbn [fst snd].
    unfold bind at 1. unfold start, handle_call at 1.
    cbn [world processes memory_processes running created trace].
    destruct (proc_start (world s) (mkProcess (created s) kind arg))
      as [w1 [err|]] eqn:Es.
    + inversion E; subst. eexists. split; [reflexivity|].
      cbn [world tracked untracked processes memory_processes trace].
      unfold spawned. cbn [seq map app]. rewrite Nat.add_0_r.
      destruct kind; cbn; rewrite ?app_nil_r; repeat split; auto; lia.
    + destruct (start_each kind arg (S (created s)) n w1)
        as [[k1 r1] w2] eqn:E1.
      inversion E; subst. clear E.
      set (s1 := mkTester w1 (processes s) (memory_processes s) (running s)
                   (S (created s))
                   (trace s ++ [EvStart (mkProcess (created s) kind arg) None])).
      assert (Ea : exists s2,
        append_tracked kind (mkProcess (created s) kind arg) s1 = (Ok tt, s2)
        /\ world s2 = w1
        /\ tracked kind s2
           = tracked kind s ++ [mkProcess (created s) kind arg]
        /\ untracked kind s2 = untracked kind s
        /\ created s2 = S (created s)
        /\ trace s2
           = trace s ++ [EvStart (mkProcess (created s) kind arg) None]).
      { destruct kind; eexists; (split; [reflexivity|]); cbn; auto. }
      destruct Ea as (s2 & Ea & Hw2 & Ht2 & Hu2 & Hc2 & Htr2).
      rewrite Ea.
      rewrite <- Hw2, <- Hc2 in E1.
      destruct (IH s2 _ _ _ E1) as (s' & E & Hw & Hk & Hr & Ht & Hu & Htr).
      exists s'. split; [exact E|]. split; [exact Hw|]. split; [lia|].
      split; [destruct r; lia|].
      assert (Hsp : forall c,
        spawned kind arg c (S k1)
        = mkProcess c kind arg :: spawned kind arg (S c) k1).
      { intros c. reflexivity. }
      rewrite Hsp. rewrite Hc2 in *.
      split; [rewrite Ht, Ht2, <- app_assoc; reflexivity|].
      split; [congruence|].
      rewrite Htr, Htr2, <- !app_assoc. cbn [map app].
      replace (S (created s) + k1)%nat with (created s + S k1)%nat by lia.
      reflexivity.
Qed.

(** C9.  If the start of the [k]-th of the [n] requested workers is the
    first that the host refuses in [stress_cpu] or [stress_memory], the
    call raises the exception of that start to its caller, and the tracked
    list has grown by exactly the [k - 1] workers that started: the handle
    whose start failed is not among them.  The call of
    [cleanup_processes] that follows takes the tracked handles, and no
    other, through the shutdown protocol and leaves both lists empty. *)
Theorem failed_start_keeps_started_workers
  (kind : workload) (n duration arg : Z) (s : tester W)
  (k : nat) (err : error) (w' : W) :
  (1 <= k)%nat ->
  start_each kind arg (created s) (Z.to_nat n) (world s)
  = ((k - 1)%nat, Some err, w') ->
  exists s' s'' blocks,
    let started := spawned kind arg (created s) (k - 1) in
    let failed := mkProcess (created s + (k - 1)) kind arg in
    stress kind n duration arg s = (Raise (Exception err), s')
    /\ (k <= Z.to_nat n)%nat
    /\ world s' = w'
    /\ tracked kind s' = tracked kind s ++ started
    /\ length started = (k - 1)%nat
    /\ ~ In failed started
    /\ untracked kind s' = untracked kind s
    /\ trace s'
       = trace s ++ map (fun p => EvStart p None) started
           ++ [EvStart failed (Some err);
               EvLog ERROR (error_starting kind err)]
    /\ cleanup_processes s' = (Ok tt, s'')
    /\ processes s'' = [] /\ memory_processes s'' = []
    /\ trace s''
       = trace s' ++ [EvCleanup] ++ concat blocks
           ++ [EvLog INFO AllCleanedUp]
    /\ cleanup_run (processes s' ++ memory_processes s') w' blocks
         (world s'') None.
Proof.
  intros Hk1 Eh.
  destruct (spawn_loop_start_each kind arg _ s _ _ _ Eh)
    as (s1 & El & Hw & _ & Hlt & Ht & Hu & Htr).
  set (s' := mkTester (world s1) (processes s1) (memory_processes s1)
               (running s1) (created s1)
               (trace s1 ++ [EvLog ERROR (error_starting kind err)])).
  assert (Es : stress kind n duration arg s = (Raise (Exception err), s')).
  { rewrite stress_unfold. unfold try_except, bind at 1. rewrite El.
    reflexivity. }
  destruct (cleanup_processes_spec s')
    as (s'' & bs & Ec & Hp & Hm & _ & _ & Htc & Hb).
  exists s', s'', bs. cbn zeta.
  split; [exact Es|]. split; [lia|]. split; [exact Hw|].
  split; [destruct kind; exact Ht|].
  split; [unfold spawned; rewrite length_map, length_seq; reflexivity|].
  split.
  { unfold spawned. rewrite in_map_iff. intros (i & Hi & Hin).
    apply in_seq in Hin. inversion Hi. lia. }
  split; [destruct kind; exact Hu|].
  split.
  { subst s'. cbn [trace]. rewrite Htr, <- !app_assoc. reflexivity. }
  split; [exact Ec|]. split; [exact Hp|]. split; [exact Hm|].
  split; [exact Htc|].
  subst s'. cbn [world processes memory_processes] in Hb. rewrite <- Hw.
  exact Hb.
Qed.

(** C10.  [stress_cpu] does not read its [duration] argument: with the same
    [cores] and [intensity], two durations give the same result from the
    same state, hence the same starts of the same workers (target
    [cpu_burn], argument [intensity]), the same tracked lists and the same
    trace. *)
Theorem stress_cpu_ignores_duration
  (cores duration1 duration2 intensity : Z) (s : tester W) :
  stress_cpu cores duration1 intensity s
  = stress_cpu cores duration2 intensity s
  /\ exists k r s',
       stress_cpu cores duration1 intensity s = (r, s')
       /\ (k <= Z.to_nat cores)%nat
       /\ processes s'
          = processes s ++ spawned cpu_burn intensity (created s) k
       /\ memory_processes s' = memory_processes s.
Proof.
  split; [reflexivity|].
  change (stress_cpu cores duration1 intensity)
    with (stress cpu_burn cores duration1 intensity).
  rewrite stress_unfold. unfold try_except, bind at 1.
  destruct (spawn_loop_spec cpu_burn intensity (Z.to_nat cores) s)
    as (k & r & s1 & El & Hk & Ht & Hu & _ & Hcase).
  rewrite El. exists k.
  destruct Hcase as [(-> & _)|(err & -> & _)]; cbn;
    eexists; eexists; (split; [reflexivity|]); cbn; auto.
Qed.

(* --------------------------------------------------------------------- *)
(** ** [validate_args] *)
(* --------------------------------------------------------------------- *)

Lemma validate_args_cases (a : Namespace.t) (s : tester W) :
  (invalid a = true
   /\ exists msg,
        validate_args a s = (Raise (Exception (mkError ValueError msg)), s))
  \/ (invalid a = false
      /\ exists new,
           validate_args a s
           = (Ok tt,
              mkTester (world s) (processes s) (memory_processes s)
                (running s) (created s) (trace s ++ new))).
Proof.
  unfold validate_args, invalid, value_error, raise.
  destruct (Namespace.cores a <=? 0); [left; split; eauto|].
  destruct (Namespace.time a <=? 0); [left; split; eauto|].
  destruct (Namespace.intensity a <=? 0); [left; split; eauto|].
  destruct (Namespace.memory_processes a <? 0); [left; split; eauto|].
  destruct (Namespace.memory_size a <=? 0); [left; split; eauto|].
  right. split; [reflexivity|]. unfold bind, print, emit, ret.
  destruct (Namespace.cores a >? mp_cpu_count (world s));
    destruct ((Namespace.memory_processes a >? 0)
              && (Namespace.memory_size a >? 1000));
    cbn; rewrite <- ?app_assoc; try (eexists; reflexivity).
  exists []. rewrite app_nil_r. destruct s; reflexivity.
Qed.

Lemma invalid_iff (a : Namespace.t) :
  invalid a = true
  <-> Namespace.cores a <= 0 \/ Namespace.time a <= 0
      \/ Namespace.intensity a <= 0 \/ Namespace.memory_processes a < 0
      \/ Namespace.memory_size a <= 0.
Proof.
  unfold invalid. rewrite !orb_true_iff, !Z.leb_le, Z.ltb_lt. tauto.
Qed.

(** C5.  [validate_args] raises a [ValueError] exactly when [cores <= 0], or
    [time <= 0], or [intensity <= 0], or [memory_processes < 0], or
    [memory_size <= 0], and returns without error otherwise; it rejects
    [cores = 0], [time = -1], [intensity = 0], [memory_processes = -1] and
    [memory_size = 0], and accepts [cores = 1, time = 1, intensity = 1,
    memory_processes = 0, memory_size = 1]. *)
Theorem validate_args_rejects_exactly
  (a : Namespace.t) (s : tester W) (legacy : bool) :
  let rejects := fun a =>
    exists msg s',
      validate_args a s = (Raise (Exception (mkError ValueError msg)), s') in
  let accepts := fun a => exists s', validate_args a s = (Ok tt, s') in
  let bad :=
    Namespace.cores a <= 0 \/ Namespace.time a <= 0
    \/ Namespace.intensity a <= 0 \/ Namespace.memory_processes a < 0
    \/ Namespace.memory_size a <= 0 in
  (rejects a <-> bad)
  /\ (accepts a <-> ~ bad)
  /\ rejects (Namespace.mk 0 1 1 0 1 legacy)
  /\ rejects (Namespace.mk 1 (-1) 1 0 1 legacy)
  /\ rejects (Namespace.mk 1 1 0 0 1 legacy)
  /\ rejects (Namespace.mk 1 1 1 (-1) 1 legacy)
  /\ rejects (Namespace.mk 1 1 1 0 0 legacy)
  /\ accepts (Namespace.mk 1 1 1 0 1 legacy).
Proof.
  intros rejects accepts bad.
  assert (Hrej : forall a0, invalid a0 = true -> rejects a0).
  { intros a0 Hi. destruct (validate_args_cases a0 s) as [[_ [msg E]]|[Hv _]].
    - exists msg, s. exact E.
    - congruence. }
  assert (Hacc : forall a0, invalid a0 = false -> accepts a0).
  { intros a0 Hi. destruct (validate_args_cases a0 s) as [[Hv _]|[_ [new E]]].
    - congruence.
    - eexists. exact E. }
  assert (Hexcl : forall a0, rejects a0 -> accepts a0 -> False).
  { intros a0 (msg & s1 & E1) (s2 & E2). congruence. }
  repeat split; try (apply Hrej; reflexivity); try (apply Hacc; reflexivity).
  - intros Hr. apply invalid_iff.
    destruct (invalid a) eqn:Hi; [reflexivity|].
    exfalso. exact (Hexcl a Hr (Hacc a Hi)).
  - intros Hb. apply Hrej. apply invalid_iff. exact Hb.
  - intros Ha Hb. apply invalid_iff in Hb. exact (Hexcl a (Hrej a Hb) Ha).
  - intros Hnb. apply Hacc. destruct (invalid a) eqn:Hi; [|reflexivity].
    exfalso. apply Hnb. apply invalid_iff. exact Hi.
Qed.

(* --------------------------------------------------------------------- *)
(** ** The exit status *)
(* --------------------------------------------------------------------- *)

Lemma sound_validate_args a : sound W (validate_args a).
Proof.
  intros s r s' E.
  destruct (validate_args_cases a s) as [[_ [msg E1]]|[_ [new E1]]];
    rewrite E in E1; inversion E1; subst.
  - split; [exists []; rewrite app_nil_r; reflexivity | exact I].
  - split; [eexists; reflexivity | exact I].
Qed.

Lemma sound_legacy_mode a : sound W (legacy_mode a).
Proof.
  unfold legacy_mode.
  repeat first
    [ apply sound_CPUStressTester | apply sound_stress_cpu
    | apply sound_legacy_tick | sound_step ].
Qed.

Lemma sound_advanced_mode a : sound W (advanced_mode a).
Proof.
  unfold advanced_mode.
  repeat first
    [ apply sound_CPUStressTester | apply sound_run_stress_test | sound_step ].
Qed.

(** The [try] suite of the [__main__] block. *)
Lemma sound_main_suite a :
  sound W (validate_args a ;;
         if Namespace.cpu_only a then legacy_mode a else advanced_mode a).
Proof.
  apply sound_bind; [apply sound_validate_args|]. intros _.
  destruct (Namespace.cpu_only a);
    [apply sound_legacy_mode | apply sound_advanced_mode].
Qed.

(** The [except] clauses of the [__main__] block, as a table. *)
Lemma main_exit_status (a : Namespace.t) (s : tester W) :
  exit_status (fst (main a s))
  = match fst ((validate_args a ;;
                if Namespace.cpu_only a then legacy_mode a
                else advanced_mode a) s) with
    | Ok _ => 0
    | Raise (Exception _) => 1
    | Raise KeyboardInterrupt => 0
    | Raise (SystemExit code) => code
    end.
Proof.
  unfold main, try_except.
  match goal with
  | |- context [match ?m s with _ => _ end] => destruct (m s) as [[[]|e] s1]
  end; [reflexivity|].
  destruct e as [[[] msg]| |c]; reflexivity.
Qed.

Lemma CPUStressTester_returns (s : tester W) :
  snd (logging_setup (world s)) = None ->
  CPUStressTester s
  = (Ok tt,
     mkTester (fst (logging_setup (world s))) [] [] true (created s)
       (trace s ++ [EvLog INFO LogFileCreated])).
Proof.
  intros H. unfold CPUStressTester, bind, clear_processes,
    clear_memory_processes, set_running, setup_logging. cbn.
  destruct (logging_setup (world s)) as [w' r]. cbn in H. subst r.
  reflexivity.
Qed.

Lemma CPUStressTester_raises (s : tester W) e :
  snd (logging_setup (world s)) = Some e ->
  fst (CPUStressTester s) = Raise (Exception e).
Proof.
  intros H. unfold CPUStressTester, bind, clear_processes,
    clear_memory_processes, set_running, setup_logging. cbn.
  destruct (logging_setup (world s)) as [w' r]. cbn in H. subst r.
  reflexivity.
Qed.

Lemma stress_cpu_first_start_fails cores duration intensity (s : tester W) e :
  0 < cores ->
  snd (proc_start (world s) (mkProcess (created s) cpu_burn intensity))
  = Some e ->
  fst (stress_cpu cores duration intensity s) = Raise (Exception e).
Proof.
  intros Hc H. unfold stress_cpu, try_except, for_range.
  destruct (Z.to_nat cores) as [|n] eqn:En; [lia|].
  cbn [repeat_body]. unfold bind at 1. unfold bind at 1. unfold bind at 1.
  unfold new_Process at 1. cbn [fst snd]. unfold bind at 1.
  unfold start, handle_call at 1. cbn [world created].
  destruct (proc_start (world s) (mkProcess (created s) cpu_burn intensity))
    as [w' r]. cbn in H. subst r. reflexivity.
Qed.

Lemma advanced_mode_result (a : Namespace.t) (s : tester W) :
  snd (logging_setup (world s)) = None ->
  fst (advanced_mode a s) = Ok tt
  \/ fst (advanced_mode a s) = Raise (SystemExit 0).
Proof.
  intros H. unfold advanced_mode.
  rewrite (bind_returned _ _ _ _ _ (CPUStressTester_returns s H)).
  unfold bind, print, emit.
  cbn [fst snd world processes memory_processes running created trace].
  destruct (Namespace.memory_processes a >? 0);
    cbn [fst snd world processes memory_processes running created trace ret];
    match goal with
    | |- context [run_stress_test ?c ?d ?i ?m ?z ?s0] =>
        exact (run_stress_test_result c d i m z s0)
    end.
Qed.

Lemma run_program_status (w : W) (a : Namespace.t) :
  fst (run_program w a) = exit_status (fst (main a (boot w))).
Proof. unfold run_program. destruct (main a (boot w)); reflexivity. Qed.

Lemma main_suite_valid (a : Namespace.t) (w : W) :
  invalid a = false ->
  exists new,
    (validate_args a ;;
     if Namespace.cpu_only a then legacy_mode a else advanced_mode a) (boot w)
    = (if Namespace.cpu_only a then legacy_mode a else advanced_mode a)
        (mkTester w [] [] true 0 new).
Proof.
  intros Hv.
  destruct (validate_args_cases a (boot w)) as [[Hi _]|[_ [new E]]];
    [congruence|].
  exists new. rewrite (bind_returned _ _ _ _ _ E). reflexivity.
Qed.

(** C4, as the code has it.  The exit status is 1 exactly when an exception
    of class [Exception] leaves the [try] suite of the [__main__] block, and
    0 otherwise (the suite completed, or was interrupted).  It is 1 when
    [validate_args] rejects the arguments and when the construction of the
    tester fails.  In the advanced mode, once the tester is constructed, it
    is 0 whatever happens during the run: an exception raised inside
    [run_stress_test], a failure to start a worker included, is caught
    there.  In the legacy mode a failure to start the first worker gives
    1. *)
Theorem exit_status_by_cause (w : W) (a : Namespace.t) :
  let suite :=
    validate_args a ;;
    if Namespace.cpu_only a then legacy_mode a else advanced_mode a in
  let code := fst (run_program w a) in
  (code = 1 <-> exists e, fst (suite (boot w)) = Raise (Exception e))
  /\ (code = 0 \/ code = 1)
  /\ (invalid a = true -> code = 1)
  /\ (invalid a = false -> snd (logging_setup w) <> None -> code = 1)
  /\ (invalid a = false -> snd (logging_setup w) = None ->
      Namespace.cpu_only a = false -> code = 0)
  /\ (invalid a = false -> snd (logging_setup w) = None ->
      Namespace.cpu_only a = true ->
      snd (proc_start (fst (logging_setup w))
             (mkProcess 0 cpu_burn (Namespace.intensity a))) <> None ->
      code = 1).
Proof.
  intros suite code. subst code.
  rewrite run_program_status, main_exit_status. fold suite.
  pose proof (sound_main_suite a (boot w)) as Hs. fold suite in Hs.
  split; [|split; [|split; [|split; [|split]]]].
  - destruct (suite (boot w)) as [[[]|[e| |c]] s1] eqn:E; cbn.
    + split; [discriminate | intros [e He]; discriminate].
    + split; [eauto | reflexivity].
    + split; [discriminate | intros [e He]; discriminate].
    + destruct (Hs _ _ eq_refl) as [_ Hc]. cbn in Hc. subst c.
      split; [discriminate | intros [e He]; discriminate].
  - destruct (suite (boot w)) as [[[]|[e| |c]] s1] eqn:E; cbn; auto.
    destruct (Hs _ _ eq_refl) as [_ Hc]. cbn in Hc. auto.
  - intros Hi. subst suite.
    destruct (validate_args_cases a (boot w)) as [[_ [msg E]]|[Hv _]];
      [|congruence].
    rewrite (bind_raised _ _ _ _ _ E). reflexivity.
  - intros Hv Hl. destruct (main_suite_valid a w Hv) as [new E].
    subst suite. rewrite E.
    destruct (snd (logging_setup w)) as [e|] eqn:El; [|congruence].
    destruct (Namespace.cpu_only a).
    + unfold legacy_mode, bind at 1. unfold print, emit at 1.
      match goal with
      | |- context [bind CPUStressTester ?k ?s0] =>
          pose proof (CPUStressTester_raises s0 e El) as Hc;
          unfold bind at 1; destruct (CPUStressTester s0) as [r s1]
      end.
      cbn in Hc. subst r. reflexivity.
    + unfold advanced_mode.
      match goal with
      | |- context [bind CPUStressTester ?k ?s0] =>
          pose proof (CPUStressTester_raises s0 e El) as Hc;
          unfold bind at 1; destruct (CPUStressTester s0) as [r s1]
      end.
      cbn in Hc. subst r. reflexivity.
  - intros Hv Hl Hm. destruct (main_suite_valid a w Hv) as [new E].
    subst suite. rewrite E, Hm.
    destruct (advanced_mode_result a (mkTester w [] [] true 0 new) Hl)
      as [-> | ->]; reflexivity.
  - intros Hv Hl Hm Hst. destruct (main_suite_valid a w Hv) as [new E].
    subst suite. rewrite E, Hm.
    unfold legacy_mode, bind at 1. unfold print, emit at 1.
    match goal with
    | |- context [bind CPUStressTester ?k ?s0] =>
        rewrite (bind_returned _ _ _ _ _ (CPUStressTester_returns s0 Hl))
    end.
    cbn [world created trace].
    destruct (snd (proc_start (fst (logging_setup w))
                     (mkProcess 0 cpu_burn (Namespace.intensity a))))
      as [e|] eqn:Ee; [|congruence].
    match goal with
    | |- context [bind (stress_cpu ?c ?d ?i) ?k ?s0] =>
        pose proof (stress_cpu_first_start_fails c d i s0 e) as Hf;
        unfold bind at 1; destruct (stress_cpu c d i s0) as [r s1]
    end.
    cbn in Hf. rewrite Hf; [reflexivity| |exact Ee].
    unfold invalid in Hv. rewrite !orb_false_iff in Hv.
    destruct Hv as [[[[Hc _] _] _] _]. apply Z.leb_gt in Hc. exact Hc.
Qed.

(* --------------------------------------------------------------------- *)
(** ** The legacy mode *)
(* --------------------------------------------------------------------- *)

Lemma bind_returned_inv {A B} (m : M W A) (k : A -> M W B) s b s' :
  bind m k s = (Ok b, s') ->
  exists a s1, m s = (Ok a, s1) /\ k a s1 = (Ok b, s').
Proof.
  unfold bind. destruct (m s) as [[a|e] s1]; [eauto | discriminate].
Qed.

(** C8.  In the legacy mode, let [s1] be the state in which the polling
    loop starts.  If the loop ends normally in [s2], the program goes on
    with [cleanup_processes] from [s2] and the final print.  If the loop
    raises in [s2], the program ends by [SystemExit] from [s2] with at most
    one more print: nothing calls [cleanup_processes] after the exception,
    the world and both tracked lists are those of [s2]. *)
Theorem legacy_loop_exception_skips_cleanup
  (a : Namespace.t) (s0 s1 : tester W) :
  Namespace.cpu_only a = true ->
  (validate_args a ;;
   print (LegacyBanner (Namespace.cores a) (Namespace.time a)
            (Namespace.intensity a)) ;;
   CPUStressTester ;;
   stress_cpu (Namespace.cores a) (Namespace.time a) (Namespace.intensity a))
    s0 = (Ok tt, s1) ->
  match while_running legacy_tick legacy_tick_clock (clock (world s1))
          (Namespace.time a) s1 with
  | (Ok _, s2) =>
      exists s3 blocks,
        cleanup_processes s2 = (Ok tt, s3)
        /\ trace s3
           = trace s2 ++ [EvCleanup] ++ concat blocks
               ++ [EvLog INFO AllCleanedUp]
        /\ main a s0 = print LegacyFinished s3
  | (Raise e, s2) =>
      exists code s',
        main a s0 = (Raise (SystemExit code), s')
        /\ world s' = world s2
        /\ processes s' = processes s2
        /\ memory_processes s' = memory_processes s2
        /\ (trace s' = trace s2 \/ exists t, trace s' = trace s2 ++ [EvPrint t])
  end.
Proof.
  intros Hmode Hpre.
  apply bind_returned_inv in Hpre. destruct Hpre as ([] & sa & Ea & Hpre).
  apply bind_returned_inv in Hpre. destruct Hpre as ([] & sb & Eb & Hpre).
  apply bind_returned_inv in Hpre. destruct Hpre as ([] & sc & Ec & Ed).
  assert (Hsuite :
    (validate_args a ;;
     if Namespace.cpu_only a then legacy_mode a else advanced_mode a) s0
    = (while_running legacy_tick legacy_tick_clock (clock (world s1))
         (Namespace.time a) ;;
       cleanup_processes ;;
       print LegacyFinished) s1).
  { rewrite Hmode. rewrite (bind_returned _ _ _ _ _ Ea). unfold legacy_mode.
    rewrite (bind_returned _ _ _ _ _ Eb).
    rewrite (bind_returned _ _ _ _ _ Ec).
    rewrite (bind_returned _ _ _ _ _ Ed).
    reflexivity. }
  unfold main, try_except. rewrite Hsuite.
  destruct (while_running legacy_tick legacy_tick_clock (clock (world s1))
              (Namespace.time a) s1) as [[[]|e] s2] eqn:Ew.
  - destruct (cleanup_processes_spec s2)
      as (s3 & bs & E3 & _ & _ & _ & _ & Ht & _).
    exists s3, bs. split; [exact E3|]. split; [exact Ht|].
    rewrite (bind_returned _ _ _ _ _ Ew), (bind_returned _ _ _ _ _ E3).
    reflexivity.
  - rewrite (bind_raised _ _ _ _ _ Ew).
    destruct e as [[[] msg]| |c]; cbn;
      eexists; eexists; (split; [reflexivity|]); cbn; eauto 6.
Qed.

End TesterFacts.

(* ===================================================================== *)
(** * The program on the simulated host *)
(* ===================================================================== *)

(** A run that completes: one cleanup, exit status 0, nothing tracked and
    nothing alive at the end. *)
Example calm_run :
  let (code, s) := run_program Sim.calm (Sim.two_cores false) in
  code = 0
  /\ length (filter is_cleanup (trace s)) = 1%nat
  /\ processes s = []
  /\ Sim.alive (world s) = [].
Proof. vm_compute. repeat split. Qed.

(** A run interrupted by a signal: the handler cleans up, the [finally]
    clause cleans up once more, exit status 0. *)
Example interrupted_run :
  let (code, s) := run_program Sim.interrupted (Sim.two_cores false) in
  code = 0
  /\ length (filter is_cleanup (trace s)) = 2%nat
  /\ processes s = []
  /\ Sim.alive (world s) = [].
Proof. vm_compute. repeat split. Qed.

(** A run in which a blocking call raises [KeyboardInterrupt]: the
    [except] clause of [run_stress_test] reports it, the [finally] clause
    cleans up, exit status 0. *)
Example keyboard_interrupt_run :
  let (code, s) := run_program Sim.keyboard (Sim.two_cores false) in
  code = 0
  /\ In (EvPrint InterruptedByUser) (trace s)
  /\ length (filter is_cleanup (trace s)) = 1%nat
  /\ processes s = []
  /\ Sim.alive (world s) = [].
Proof.
  vm_compute. repeat split. repeat first [left; reflexivity | right].
Qed.

(** The legacy mode when polling fails: exit status 1, no cleanup, both
    workers still tracked and alive. *)
Example legacy_poll_failure :
  let (code, s) := run_program Sim.poll_fails (Sim.two_cores true) in
  code = 1
  /\ length (filter is_cleanup (trace s)) = 0%nat
  /\ processes s = [mkProcess 0 cpu_burn 1; mkProcess 1 cpu_burn 1]
  /\ Sim.alive (world s) = [1%nat; 0%nat].
Proof. vm_compute. repeat split. Qed.

(** The legacy mode when the start of the second worker fails: exit status
    1. *)
Example legacy_spawn_failure :
  fst (run_program Sim.second_start_fails (Sim.two_cores true)) = 1.
Proof. vm_compute. reflexivity. Qed.

(** C4 fails on the code: in the advanced mode a failure to start a worker
    does not give the exit status 1.  On the host where the start of the
    second worker fails, the trace records the failed start and the exit
    status is 0. *)
Lemma spawn_failure_exits_with_0 :
  ~ (forall (w : Sim.world) (a : Namespace.t),
       (exists p e, In (EvStart p (Some e)) (trace (snd (run_program w a)))) ->
       fst (run_program w a) = 1).
Proof.
  intros H.
  specialize (H Sim.second_start_fails (Sim.two_cores false)).
  assert (Hin : exists p e,
            In (EvStart p (Some e))
               (trace (snd (run_program Sim.second_start_fails
                              (Sim.two_cores false))))).
  { exists (mkProcess 1 cpu_burn 1),
      (mkError OSError "Resource temporarily unavailable").
    vm_compute. repeat first [left; reflexivity | right]. }
  apply H in Hin. vm_compute in Hin. discriminate.
Qed.

(** C2 fails on the code, by a slip of the code: the first [p.is_alive()]
    of [cleanup_processes] stands outside its [try] statement.  In the
    second worker, which inherited the tester and the signal handler at
    the fork, that call fails its assertion: [cleanup_processes] raises,
    the tracked list is not cleared, and a second call in a row raises
    again. *)
Theorem cleanup_processes_keeps_lists_when_is_alive_raises :
  let (r, s1) := cleanup_processes Forked.second_worker in
  r = Raise (Exception Forked.not_a_child)
  /\ processes s1 = [mkProcess 0 cpu_burn 1]
  /\ trace s1
     = [EvCleanup; EvIsAlive (mkProcess 0 cpu_burn 1)
                     (inl Forked.not_a_child)]
  /\ fst (cleanup_processes s1) = Raise (Exception Forked.not_a_child)
  /\ processes (snd (cleanup_processes s1)) = [mkProcess 0 cpu_burn 1].
Proof. vm_compute. repeat split. Qed.

(** C3 fails on the code, by the same slip.  In the third worker the list
    holds the handles of the first two workers, both running: the first
    [is_alive] raises, no [terminate] is sent to either, the second handle
    is not even tested, and the workers are as alive as before. *)
Theorem cleanup_processes_stops_when_is_alive_raises :
  let (r, s1) := cleanup_processes Forked.third_worker in
  r = Raise (Exception Forked.not_a_child)
  /\ trace s1
     = [EvCleanup; EvIsAlive (mkProcess 0 cpu_burn 1)
                     (inl Forked.not_a_child)]
  /\ Sim.alive (Forked.parent (world s1)) = [2%nat; 1%nat; 0%nat]
  /\ processes s1 = [mkProcess 0 cpu_burn 1; mkProcess 1 cpu_burn 1].
Proof. vm_compute. repeat split. Qed.

Lemma exit_status_by_cause_witness :
  fst (run_program Sim.second_start_fails (Sim.two_cores false)) = 0.
Proof.
  pose proof (exit_status_by_cause Sim.second_start_fails (Sim.two_cores false))
    as H.
  cbv zeta in H. destruct H as (_ & _ & _ & _ & H & _).
  apply H; reflexivity.
Defined.

Lemma failed_start_keeps_started_workers_witness :
  exists s',
    stress cpu_burn 3 10 1 (boot Sim.second_start_fails)
    = (Raise (Exception (mkError OSError "Resource temporarily unavailable")),
       s')
    /\ tracked cpu_burn s' = [] ++ spawned cpu_burn 1 0 (2 - 1).
Proof.
  destruct (failed_start_keeps_started_workers cpu_burn 3 10 1
              (boot Sim.second_start_fails) 2
              (mkError OSError "Resource temporarily unavailable")
              (Sim.with_alive [0%nat] Sim.second_start_fails))
    as (s' & s'' & bs & H).
  - lia.
  - vm_compute. reflexivity.
  - cbv zeta in H. destruct H as (Hs & _ & _ & Ht & _).
    exists s'. split; [exact Hs | exact Ht].
Defined.

Lemma legacy_loop_exception_skips_cleanup_witness :
  exists code s',
    main (Sim.two_cores true) (boot Sim.poll_fails) = (Raise (SystemExit code), s')
    /\ processes s' = [mkProcess 0 cpu_burn 1; mkProcess 1 cpu_burn 1].
Proof.
  pose (a := Sim.two_cores true).
  pose (s0 := boot Sim.poll_fails).
  pose (s1 := snd ((validate_args a ;;
                    print (LegacyBanner (Namespace.cores a) (Namespace.time a)
                             (Namespace.intensity a)) ;;
                    CPUStressTester ;;
                    stress_cpu (Namespace.cores a) (Namespace.time a)
                      (Namespace.intensity a)) s0)).
  assert (E1 : (validate_args a ;;
                print (LegacyBanner (Namespace.cores a) (Namespace.time a)
                         (Namespace.intensity a)) ;;
                CPUStressTester ;;
                stress_cpu (Namespace.cores a) (Namespace.time a)
                  (Namespace.intensity a)) s0 = (Ok tt, s1))
    by (vm_compute; reflexivity).
  pose proof (legacy_loop_exception_skips_cleanup a s0 s1 eq_refl E1) as H.
  assert (Ew : while_running legacy_tick legacy_tick_clock (clock (world s1))
                 (Namespace.time a) s1
               = (Raise (Exception (mkError RuntimeError "no such file")),
                  snd (while_running legacy_tick legacy_tick_clock
                         (clock (world s1)) (Namespace.time a) s1)))
    by (vm_compute; reflexivity).
  rewrite Ew in H. destruct H as (code & s' & Hmain & _ & Hp & _).
  exists code, s'. split; [exact Hmain|].
  rewrite Hp. vm_compute. reflexivity.
Defined.

(* ===================================================================== *)
(** * Further properties of the bar *)
(* ===================================================================== *)

Lemma py_int_opp (x : Q) : py_int (- x) = - py_int x.
Proof.
  destruct x as [a b]. unfold py_int. simpl. apply Z.quot_opp_l. lia.
Qed.

Lemma py_int_nonpos (x : Q) : (x <= 0)%Q -> py_int x = Qceiling x.
Proof.
  intros H. unfold Qceiling. rewrite <- py_int_nonneg.
  - rewrite py_int_opp. lia.
  - apply (Qopp_le_compat x 0) in H. exact H.
Qed.

(** [int] is monotone. *)
Lemma py_int_le (x y : Q) : (x <= y)%Q -> py_int x <= py_int y.
Proof.
  intros H. destruct (Qlt_le_dec x 0) as [Hx|Hx];
    destruct (Qlt_le_dec y 0) as [Hy|Hy].
  - rewrite !py_int_nonpos by (apply Qlt_le_weak; assumption).
    apply Qceiling_resp_le. exact H.
  - rewrite py_int_nonpos by (apply Qlt_le_weak; assumption).
    rewrite py_int_nonneg by assumption.
    apply Z.le_trans with 0.
    + change 0 with (Qceiling 0). apply Qceiling_resp_le.
      apply Qlt_le_weak. exact Hx.
    + change 0 with (Qfloor 0). apply Qfloor_resp_le. exact Hy.
  - exfalso. apply (Qlt_irrefl 0).
    apply Qle_lt_trans with y; [|exact Hy].
    apply Qle_trans with x; assumption.
  - rewrite !py_int_nonneg by assumption. apply Qfloor_resp_le. exact H.
Qed.

Lemma render_bar_filled_count (usage : Q) :
  filled_count (render_bar usage) = Z.to_nat (bar_length usage).
Proof.
  unfold filled_count, render_bar, py_repeat.
  rewrite filter_app, length_app.
  assert (Hf : forall n, filter is_filled (repeat filled n) = repeat filled n).
  { induction n as [|n IH]; simpl; [reflexivity | rewrite IH; reflexivity]. }
  assert (He : forall n, filter is_filled (repeat empty n) = []).
  { induction n as [|n IH]; simpl; [reflexivity | exact IH]. }
  rewrite Hf, He, repeat_length. simpl. lia.
Qed.

Lemma bar_length_le (usage1 usage2 : Q) :
  (usage1 <= usage2)%Q -> bar_length usage1 <= bar_length usage2.
Proof.
  intros H. unfold bar_length. apply py_int_le.
  unfold Qdiv. apply Qmult_le_compat_r; [exact H | discriminate].
Qed.

(** X1.  The filled part of the bar grows with the usage, for all values, in
    range or not. *)
Theorem render_bar_monotone (usage1 usage2 : Q) :
  (usage1 <= usage2)%Q ->
  (filled_count (render_bar usage1) <= filled_count (render_bar usage2))%nat.
Proof.
  intros H. rewrite !render_bar_filled_count.
  apply bar_length_le in H. lia.
Qed.

Lemma render_bar_monotone_witness :
  (filled_count (render_bar (33 # 10)) <= filled_count (render_bar 50))%nat.
Proof.
  apply render_bar_monotone. unfold Qle. simpl. lia.
Defined.

Lemma bar_length_in_range (usage : Q) :
  0 <= bar_length usage <= 20 <-> (-5 # 1 < usage /\ usage < 105)%Q.
Proof.
  destruct usage as [a b].
  unfold bar_length, py_int, Qdiv, Qmult, Qinv, Qlt. cbn [Qnum Qden].
  rewrite Pos2Z.inj_mul.
  generalize (Z.pos b) (Pos2Z.is_pos b). intros d Hd.
  Z.to_euclidean_division_equations.
  remember (d * 5) as e eqn:Ee.
  assert (Hq1 : q <= -1 -> e * q <= - e) by nia.
  assert (Hq2 : 21 <= q -> 21 * e <= e * q) by nia.
  assert (Hq3 : 0 <= q -> 0 <= e * q) by nia.
  assert (Hq4 : q <= 20 -> e * q <= 20 * e) by nia.
  destruct (Z.le_gt_cases 0 a); destruct (Z.le_gt_cases 0 q);
    destruct (Z.le_gt_cases q 20); split; intros; lia.
Qed.

(** X2.  The bar never has fewer than 20 segments, and it has exactly 20
    when the usage lies strictly between -5 and 105: there is no clamp, a
    value out of that range makes the bar longer. *)
Theorem render_bar_length (usage : Q) :
  (20 <= length (render_bar usage))%nat
  /\ (length (render_bar usage) = 20%nat
      <-> (-5 # 1 < usage /\ usage < 105)%Q).
Proof.
  rewrite <- bar_length_in_range.
  unfold render_bar, py_repeat. rewrite length_app, !repeat_length.
  split; [lia|]. split; intros H; lia.
Qed.

(* ===================================================================== *)
(** * Further properties of [memory_burn] *)
(* ===================================================================== *)

Section MemoryBurnEdges.

Variable size_mb : Z.
Variable alloc_fails : nat -> bool.
Variable sample : nat -> nat -> nat -> list nat.

(** X3.  With [size_mb <= 0] the worker never allocates: after any number of
    cycles its list is empty and no allocation was attempted, whatever the
    allocator would have answered. *)
Theorem memory_burn_nothing_to_allocate (n : nat) :
  size_mb <= 0 ->
  memory_burn size_mb alloc_fails sample n = Some (mkBurn [] 0 n).
Proof.
  intros Hs. induction n as [|n IH]; [reflexivity|].
  cbn [memory_burn]. rewrite IH. unfold memory_burn_cycle.
  replace (Z.to_nat size_mb) with 0%nat by lia. cbn [allocate].
  unfold modify_existing, clear_some. cbn [data allocated cycles length].
  destruct (Z.of_nat 0 >? size_mb * 2); [|reflexivity].
  cbn [data allocated cycles]. unfold py_slice_from.
  rewrite skipn_nil. reflexivity.
Qed.

(** [allocate] fails exactly when one of the serials it would use is
    refused. *)
Lemma allocate_fails_iff (k : nat) (st : burn_state) :
  allocate alloc_fails k st = None
  <-> exists i, (i < k)%nat /\ alloc_fails (allocated st + i) = true.
Proof.
  revert st. induction k as [|k IH]; intros st; cbn [allocate].
  - split; [discriminate | intros (i & Hi & _); lia].
  - destruct (alloc_fails (allocated st)) eqn:E.
    + split; [|reflexivity]. intros _. exists 0%nat.
      rewrite Nat.add_0_r. split; [lia | exact E].
    + rewrite IH. cbn [allocated]. split.
      * intros (i & Hi & Hf). exists (S i). split; [lia|].
        rewrite <- Hf. f_equal. lia.
      * intros (i & Hi & Hf). destruct i as [|i].
        -- rewrite Nat.add_0_r in Hf. congruence.
        -- exists i. split; [lia|]. rewrite <- Hf. f_equal. lia.
Qed.

(** X4.  When the allocation of serial [j] is the first to fail, the worker
    leaves its loop in the cycle that reaches serial [j] and in no other: it
    has returned after [n] cycles exactly when [j < n * size_mb]. *)
Theorem memory_burn_stops_at_failed_allocation (j n : nat) :
  0 < size_mb ->
  alloc_fails j = true ->
  (forall i, (i < j)%nat -> alloc_fails i = false) ->
  (memory_burn size_mb alloc_fails sample n = None
   <-> (j < n * Z.to_nat size_mb)%nat).
Proof.
  intros Hs Hj Hbefore. induction n as [|n IH].
  - cbn. split; [discriminate | lia].
  - cbn [memory_burn].
    destruct (memory_burn size_mb alloc_fails sample n) as [st|] eqn:E.
    + destruct (memory_burn_invariant size_mb alloc_fails sample n st Hs E)
        as (_ & _ & Ha).
      assert (Hn : ~ (j < n * Z.to_nat size_mb)%nat).
      { intros Hlt. apply IH in Hlt. discriminate. }
      unfold memory_burn_cycle.
      destruct (allocate alloc_fails (Z.to_nat size_mb) st) as [st1|] eqn:Ea.
      * split; [discriminate|]. intros Hlt. exfalso.
        assert (Hf : allocate alloc_fails (Z.to_nat size_mb) st = None).
        { apply allocate_fails_iff. exists (j - allocated st)%nat.
          split; [lia|]. replace (allocated st + (j - allocated st))%nat
            with j by lia. exact Hj. }
        congruence.
      * split; [|reflexivity]. intros _.
        apply allocate_fails_iff in Ea. destruct Ea as (i & Hi & Hf).
        destruct (Nat.lt_ge_cases (allocated st + i) j) as [Hlt|Hge].
        -- rewrite (Hbefore _ Hlt) in Hf. discriminate.
        -- lia.
    + split; [|reflexivity]. intros _.
      assert (Hlt : (j < n * Z.to_nat size_mb)%nat) by (apply IH; reflexivity).
      lia.
Qed.

End MemoryBurnEdges.

Lemma memory_burn_nothing_to_allocate_witness :
  memory_burn (-3) (fun _ => true) (fun _ _ k => seq 0 k) 4
  = Some (mkBurn [] 0 4).
Proof. apply memory_burn_nothing_to_allocate. lia. Defined.

Lemma memory_burn_stops_at_failed_allocation_witness :
  memory_burn 2 (Nat.eqb 5) (fun _ _ k => seq 0 k) 3 = None.
Proof.
  apply (memory_burn_stops_at_failed_allocation 2 (Nat.eqb 5)
           (fun _ _ k => seq 0 k) 5 3).
  - lia.
  - reflexivity.
  - intros i Hi. apply Nat.eqb_neq. lia.
  - vm_compute. lia.
Defined.

(* ===================================================================== *)
(** * The flag [running], the tracked lists and the kinds of events *)
(* ===================================================================== *)

Section Orderly.

Context {W : Type} `{HW : Host W}.

Variable P : event -> bool.
Hypothesis P_shutdown : forall ev, shutdown_event ev = true -> P ev = true.

Lemma orderly_quiet {A} (m : M W A) :
  (forall s, trace (snd (m s)) = trace s
             /\ running (snd (m s)) = running s
             /\ forall code, fst (m s) <> Raise (SystemExit code)) ->
  orderly W P m.
Proof.
  intros H s r s' E. destruct (H s) as (Ht & Hr & Hx). rewrite E in *.
  cbn in *. exists []. rewrite app_nil_r. repeat split; auto.
  destruct r as [a|[e| |c]]; auto. exfalso. exact (Hx c eq_refl).
Qed.

Lemma orderly_ret {A} (a : A) : orderly W P (ret a : M W A).
Proof.
  apply orderly_quiet. intros s. repeat split. discriminate.
Qed.

Lemma orderly_raise_Exception {A} e :
  orderly W P (raise (Exception e) : M W A).
Proof.
  apply orderly_quiet. intros s. repeat split. discriminate.
Qed.

Lemma orderly_emit ev : P ev = true -> orderly W P (emit ev : M W unit).
Proof.
  intros Hp s r s' E. inversion E; subst. exists [ev]. cbn.
  rewrite Hp. auto.
Qed.

Lemma orderly_bind {A B} (m : M W A) (k : A -> M W B) :
  orderly W P m -> (forall a, orderly W P (k a)) -> orderly W P (bind m k).
Proof.
  intros Hm Hk s r s' E. unfold bind in E.
  destruct (m s) as [[a|e] s1] eqn:Em.
  - destruct (Hm _ _ _ Em) as (n1 & H1 & F1 & R1).
    destruct (Hk a _ _ _ E) as (n2 & H2 & F2 & R2).
    exists (n1 ++ n2). rewrite H2, H1, app_assoc, forallb_app, F1, F2.
    repeat split; auto.
    destruct r as [b|[x| |c]]; try congruence.
    destruct R2 as (? & ? & ? & Hin & Hin'). repeat split; auto;
      apply in_or_app; auto.
  - inversion E; subst. exact (Hm _ _ _ Em).
Qed.

(** The same, when the values that [m] returns are known to satisfy
    [Q]. *)
Lemma orderly_bind_returning {A B} (Q : A -> Prop) (m : M W A)
  (k : A -> M W B) :
  (forall s a s1, m s = (Ok a, s1) -> Q a) ->
  orderly W P m -> (forall a, Q a -> orderly W P (k a)) ->
  orderly W P (bind m k).
Proof.
  intros HQ Hm Hk s r s' E. unfold bind in E.
  destruct (m s) as [[a|e] s1] eqn:Em.
  - destruct (Hm _ _ _ Em) as (n1 & H1 & F1 & R1).
    destruct (Hk a (HQ _ _ _ Em) _ _ _ E) as (n2 & H2 & F2 & R2).
    exists (n1 ++ n2). rewrite H2, H1, app_assoc, forallb_app, F1, F2.
    repeat split; auto.
    destruct r as [b|[x| |c]]; try congruence.
    destruct R2 as (? & ? & ? & Hin & Hin'). repeat split; auto;
      apply in_or_app; auto.
  - inversion E; subst. exact (Hm _ _ _ Em).
Qed.

(** A test on the state of the tester. *)
Lemma orderly_if_state {A} (c : tester W -> bool) (m1 m2 : M W A) :
  orderly W P m1 -> orderly W P m2 ->
  orderly W P (fun s => if c s then m1 s else m2 s).
Proof.
  intros H1 H2 s r s' E.
  destruct (c s); [exact (H1 _ _ _ E) | exact (H2 _ _ _ E)].
Qed.

(** [except] clauses that let [SystemExit] through. *)
Lemma orderly_try_except {A} (m : M W A) (h : exn -> option (M W A)) :
  orderly W P m ->
  (forall code, h (SystemExit code) = None) ->
  (forall e k, h e = Some k -> orderly W P k) ->
  orderly W P (try_except m h).
Proof.
  intros Hm Hx Hh s r s' E. unfold try_except in E.
  destruct (m s) as [[a|e] s1] eqn:Em.
  - inversion E; subst. exact (Hm _ _ _ Em).
  - destruct (Hm _ _ _ Em) as (n1 & H1 & F1 & R1).
    destruct (h e) as [k|] eqn:Eh.
    + assert (Hr1 : running s1 = running s).
      { destruct e as [x| |c]; auto. rewrite Hx in Eh. discriminate. }
      destruct (Hh e k Eh _ _ _ E) as (n2 & H2 & F2 & R2).
      exists (n1 ++ n2). rewrite H2, H1, app_assoc, forallb_app, F1, F2.
      repeat split; auto.
      destruct r as [b|[x| |c]]; try congruence.
      destruct R2 as (? & ? & ? & Hin & Hin'). repeat split; auto;
        apply in_or_app; auto.
    + inversion E; subst. exists n1. auto.
Qed.

Lemma orderly_except_Exception {A} (m : M W A) (k : error -> M W A) :
  orderly W P m -> (forall e, orderly W P (k e)) ->
  orderly W P (try_except m (except_Exception k)).
Proof.
  intros Hm Hk. apply orderly_try_except; [exact Hm | reflexivity |].
  intros [e| |c] k' E; simpl in E; inversion E; subst. apply Hk.
Qed.

Lemma orderly_for_each {A} (l : list A) (body : A -> M W unit) :
  (forall x, orderly W P (body x)) -> orderly W P (for_each l body).
Proof.
  intros Hb. induction l as [|x l IH]; simpl.
  - apply orderly_ret.
  - apply orderly_bind; auto.
Qed.

Lemma orderly_for_range (n : Z) (body : M W unit) :
  orderly W P body -> orderly W P (for_range n body).
Proof.
  intros Hb. unfold for_range. induction (Z.to_nat n) as [|k IH]; simpl.
  - apply orderly_ret.
  - apply orderly_bind; auto.
Qed.

Lemma handle_protocol_shutdown p (w w' : W) block :
  handle_protocol p w block w' -> forallb shutdown_event block = true.
Proof. intros H. destruct H; reflexivity. Qed.

Lemma forallb_impl (Q1 Q2 : event -> bool) l :
  (forall ev, Q1 ev = true -> Q2 ev = true) ->
  forallb Q1 l = true -> forallb Q2 l = true.
Proof.
  intros H. rewrite !forallb_forall. auto.
Qed.

Lemma forallb_concat_protocol ps (w w' : W) blocks o :
  cleanup_run ps w blocks w' o ->
  forallb shutdown_event (concat blocks) = true.
Proof.
  induction 1 as [|p ps w b w1 bs w' o Hb _ IH|]; [reflexivity| |reflexivity].
  cbn. rewrite forallb_app, IH, (handle_protocol_shutdown _ _ _ _ Hb).
  reflexivity.
Qed.

Lemma orderly_cleanup_processes : orderly W P cleanup_processes.
Proof.
  intros s r s' E.
  destruct (cleanup_processes_spec s)
    as (s1 & bs & E1 & _ & _ & Hr & _ & Ht & Hb).
  rewrite E in E1. inversion E1; subst. eexists. split; [exact Ht|].
  split; [|exact Hr].
  apply (forallb_impl shutdown_event P); [exact P_shutdown|].
  cbn. rewrite forallb_app, (forallb_concat_protocol _ _ _ _ _ Hb).
  reflexivity.
Qed.

Lemma orderly_signal_handler {A} signum :
  orderly W P (signal_handler (A := A) signum).
Proof.
  intros s r s' E. unfold signal_handler in E.
  unfold bind at 1 in E. unfold print, emit at 1 in E.
  unfold bind at 1 in E. unfold log, emit at 1 in E.
  unfold bind at 1 in E. unfold set_running at 1 in E.
  unfold bind at 1 in E.
  match type of E with
  | context [cleanup_processes ?s0] =>
      destruct (cleanup_processes_spec s0)
        as (s1 & bs & E1 & Hp & Hm & Hr & _ & Ht & Hb);
      rewrite E1 in E
  end.
  inversion E; subst. cbn [trace running] in *.
  eexists. split; [rewrite Ht, <- !app_assoc; reflexivity|].
  split.
  - apply (forallb_impl shutdown_event P); [exact P_shutdown|].
    cbn. rewrite forallb_app, (forallb_concat_protocol _ _ _ _ _ Hb).
  reflexivity.
  - repeat split; auto; cbn; auto 8.
Qed.

Lemma orderly_blocking {A} (op : W -> W * outcome A) :
  orderly W P (blocking op).
Proof.
  intros s r s' E. unfold blocking in E.
  destruct (op (world s)) as [w' [a|e| |signum]].
  - inversion E; subst. exists []. rewrite app_nil_r. auto.
  - inversion E; subst. exists []. rewrite app_nil_r. auto.
  - inversion E; subst. exists []. rewrite app_nil_r. auto.
  - apply orderly_signal_handler in E. exact E.
Qed.

Lemma orderly_start p :
  (forall r, P (EvStart p r) = true) -> orderly W P (start p).
Proof.
  intros Hp s r s' E. unfold start, handle_call in E.
  destruct (proc_start (world s) p) as [w' [e|]]; inversion E; subst;
    eexists; (split; [reflexivity|]); cbn; rewrite Hp; auto.
Qed.

Lemma orderly_while_running tick Hadv start_time duration :
  orderly W P tick ->
  orderly W P (while_running tick Hadv start_time duration).
Proof.
  intros Ht s r s' E. revert s r s' E. apply while_running_ind.
  - intros s _. exists []. rewrite app_nil_r. auto.
  - intros s e s' _ E. exact (Ht _ _ _ E).
  - intros s u s' r s'' _ E _ (n2 & H2 & F2 & R2).
    destruct (Ht _ _ _ E) as (n1 & H1 & F1 & R1).
    exists (n1 ++ n2). rewrite H2, H1, app_assoc, forallb_app, F1, F2.
    repeat split; auto.
    destruct r as [b|[x| |c]]; try congruence.
    destruct R2 as (? & ? & ? & Hin & Hin'). repeat split; auto;
      apply in_or_app; auto.
Qed.

Lemma orderly_try_finally_cleanup {A} (m : M W A) :
  orderly W P m -> orderly W P (try_finally m cleanup_processes).
Proof.
  intros Hm s r s' E. unfold try_finally in E.
  destruct (m s) as [r0 s0] eqn:Em.
  destruct (Hm _ _ _ Em) as (n1 & H1 & F1 & R1).
  destruct (cleanup_processes_spec s0)
    as (s1 & bs & E1 & Hp & Hmm & Hr & _ & Ht & Hb).
  rewrite E1 in E. inversion E; subst.
  destruct (orderly_cleanup_processes _ _ _ E1) as (n2 & H2 & F2 & _).
  exists (n1 ++ n2). rewrite H2, H1, app_assoc, forallb_app, F1, F2.
  repeat split; auto.
  destruct r as [b|[x| |c]]; try congruence.
  destruct R1 as (Hf & _ & _ & Hin & Hin').
  repeat split; auto; try congruence; apply in_or_app; auto.
Qed.

End Orderly.

(** One step of a proof that a statement is orderly, by the head of the
    statement. *)
Ltac orderly_step :=
  lazymatch goal with
  | |- orderly _ _ (bind _ _) => apply orderly_bind; [|intros]
  | |- orderly _ _ (print _) =>
      apply orderly_emit; first [reflexivity | solve [auto]]
  | |- orderly _ _ (log _ _) =>
      apply orderly_emit; first [reflexivity | solve [auto]]
  | |- orderly _ _ (emit _) =>
      apply orderly_emit; first [reflexivity | solve [auto]]
  | |- orderly _ _ (ret _) => apply orderly_ret
  | |- orderly _ _ (raise (Exception _)) => apply orderly_raise_Exception
  | |- orderly _ _ (for_each _ _) => apply orderly_for_each; intros
  | |- orderly _ _ (for_range _ _) => apply orderly_for_range
  | |- orderly _ _ (blocking _) => apply orderly_blocking; assumption
  | |- orderly _ _ (start _) =>
      apply orderly_start; intros; first [reflexivity | solve [auto]]
  | |- orderly _ _ cleanup_processes =>
      apply orderly_cleanup_processes; assumption
  | |- orderly _ _ (try_except _ (except_Exception _)) =>
      apply orderly_except_Exception; [|intros]
  | |- orderly _ _ (while_running _ _ _ _) => apply orderly_while_running
  | |- orderly _ _ (fun s => if _ then _ else _) => apply orderly_if_state
  | |- orderly _ _ (if ?b then _ else _) => destruct b
  | |- orderly _ _ (let '(_, _) := ?x in _) => destruct x
  | |- orderly _ _ _ =>
      apply orderly_quiet; intros ?; repeat split; discriminate
  end.

Section OrderlyProgram.

Context {W : Type} `{HW : Host W}.

Variable P : event -> bool.
Hypothesis P_shutdown : forall ev, shutdown_event ev = true -> P ev = true.
Hypothesis P_print : forall t, P (EvPrint t) = true.
Hypothesis P_log : forall l t, P (EvLog l t) = true.

Lemma orderly_get_temperature_info : orderly W P get_temperature_info.
Proof. unfold get_temperature_info. repeat orderly_step. Qed.

Lemma orderly_get_system_info : orderly W P get_system_info.
Proof. unfold get_system_info. repeat orderly_step. Qed.

Lemma orderly_legacy_tick : orderly W P legacy_tick.
Proof.
  unfold legacy_tick.
  repeat lazymatch goal with
    | |- orderly _ _ get_temperature_info => apply orderly_get_temperature_info
    | _ => orderly_step
    end.
Qed.

Lemma orderly_display_dashboard a b c d :
  P EvClearScreen = true -> orderly W P (display_dashboard a b c d).
Proof.
  intros Hc. unfold display_dashboard.
  repeat lazymatch goal with
    | |- orderly _ _ get_temperature_info => apply orderly_get_temperature_info
    | _ => orderly_step
    end.
Qed.

Lemma orderly_monitoring_tick a b c d :
  P EvClearScreen = true -> orderly W P (monitoring_tick a b c d).
Proof.
  intros Hc. unfold monitoring_tick.
  repeat lazymatch goal with
    | |- orderly W P (display_dashboard _ _ _ _) =>
        apply orderly_display_dashboard; exact Hc
    | _ => orderly_step
    end.
Qed.

Lemma orderly_spawn kind arg (append : Process -> M W unit) :
  (forall i r, P (EvStart (mkProcess i kind arg) r) = true) ->
  (forall p, orderly W P (append p)) ->
  orderly W P (p <- new_Process kind arg ;; start p ;; append p).
Proof.
  intros Hp Ha.
  apply (orderly_bind_returning P (fun p => exists i, p = mkProcess i kind arg)).
  - intros s a s1 E. inversion E. eauto.
  - orderly_step.
  - intros p [i ->]. apply orderly_bind; [|intros; apply Ha].
    apply orderly_start. intros r. apply Hp.
Qed.

Lemma orderly_stress_cpu cores duration intensity :
  (forall i r, P (EvStart (mkProcess i cpu_burn intensity) r) = true) ->
  orderly W P (stress_cpu cores duration intensity).
Proof.
  intros Hp. unfold stress_cpu.
  repeat lazymatch goal with
    | |- orderly W P (bind (new_Process _ _) _) =>
        apply orderly_spawn; [exact Hp | intros; orderly_step]
    | _ => orderly_step
    end.
Qed.

Lemma orderly_stress_memory n size_mb :
  (forall i r,
     P (EvStart (mkProcess i memory_burn_worker size_mb) r) = true) ->
  orderly W P (stress_memory n size_mb).
Proof.
  intros Hp. unfold stress_memory.
  repeat lazymatch goal with
    | |- orderly W P (bind (new_Process _ _) _) =>
        apply orderly_spawn; [exact Hp | intros; orderly_step]
    | _ => orderly_step
    end.
Qed.

Lemma run_stress_test_guarded_unfold cores duration intensity mem_procs
  mem_size :
  run_stress_test_guarded cores duration intensity mem_procs mem_size
  = try_except
      (run_stress_test_suite cores duration intensity mem_procs mem_size)
      (run_stress_test_handlers (W := W)).
Proof. reflexivity. Qed.

Lemma orderly_run_stress_test_suite cores duration intensity mem_procs
  mem_size :
  P EvClearScreen = true ->
  (forall i r, P (EvStart (mkProcess i cpu_burn intensity) r) = true) ->
  (0 < mem_procs ->
   forall i r,
     P (EvStart (mkProcess i memory_burn_worker mem_size) r) = true) ->
  orderly W P
    (run_stress_test_suite cores duration intensity mem_procs mem_size).
Proof.
  intros Hc Hcpu Hmem. unfold run_stress_test_suite.
  destruct (mem_procs >? 0) eqn:Em.
  - apply Z.gtb_lt in Em. cbv iota.
    repeat lazymatch goal with
      | |- orderly W P get_system_info => apply orderly_get_system_info
      | |- orderly W P (stress_cpu _ _ _) =>
          apply orderly_stress_cpu; exact Hcpu
      | |- orderly W P (stress_memory _ _) =>
          apply orderly_stress_memory; apply Hmem; lia
      | |- orderly W P (monitoring_tick _ _ _ _) =>
          apply orderly_monitoring_tick; exact Hc
      | _ => orderly_step
      end.
  - cbv iota.
    repeat lazymatch goal with
      | |- orderly W P get_system_info => apply orderly_get_system_info
      | |- orderly W P (stress_cpu _ _ _) =>
          apply orderly_stress_cpu; exact Hcpu
      | |- orderly W P (monitoring_tick _ _ _ _) =>
          apply orderly_monitoring_tick; exact Hc
      | _ => orderly_step
      end.
Qed.

Lemma orderly_run_stress_test_guarded cores duration intensity mem_procs
  mem_size :
  P EvClearScreen = true ->
  (forall i r, P (EvStart (mkProcess i cpu_burn intensity) r) = true) ->
  (0 < mem_procs ->
   forall i r,
     P (EvStart (mkProcess i memory_burn_worker mem_size) r) = true) ->
  orderly W P
    (run_stress_test_guarded cores duration intensity mem_procs mem_size).
Proof.
  intros Hc Hcpu Hmem. rewrite run_stress_test_guarded_unfold.
  apply orderly_try_except.
  - apply orderly_run_stress_test_suite; assumption.
  - reflexivity.
  - intros [err| |code] k E; inversion E; subst; repeat orderly_step.
Qed.

Lemma orderly_run_stress_test cores duration intensity mem_procs mem_size :
  P EvClearScreen = true ->
  (forall i r, P (EvStart (mkProcess i cpu_burn intensity) r) = true) ->
  (0 < mem_procs ->
   forall i r,
     P (EvStart (mkProcess i memory_burn_worker mem_size) r) = true) ->
  orderly W P (run_stress_test cores duration intensity mem_procs mem_size).
Proof.
  intros Hc Hcpu Hmem. unfold run_stress_test.
  apply orderly_try_finally_cleanup; [exact P_shutdown|].
  apply orderly_run_stress_test_guarded; assumption.
Qed.

End OrderlyProgram.

(* ===================================================================== *)
(** * [signal_handler] in any process *)
(* ===================================================================== *)

Section SignalHandler.

Context {W : Type} `{HP : Platform W}.

(** X5.  In any process that runs it, [signal_handler] never returns.  It
    prints and logs the interrupt, clears [running] and passes over the
    tracked handles as [cleanup_processes] does, making the calls of the
    protocol on the host.  When the pass completes, both lists are empty
    and the handler leaves by [SystemExit] with status 0.  When the first
    [is_alive] of a handle raises, as it does in a forked worker, that
    exception leaves the handler instead: [sys.exit] is not reached, both
    lists are as they were and the handles after that one are not
    touched. *)
Theorem signal_handler_never_returns (signum : Z) (s : tester W) :
  exists x s' blocks o,
    signal_handler (A := unit) signum s = (Raise x, s')
    /\ running s' = false
    /\ cleanup_run (processes s ++ memory_processes s) (world s) blocks
         (world s') o
    /\ match o with
       | None =>
           x = SystemExit 0
           /\ processes s' = [] /\ memory_processes s' = []
           /\ trace s'
              = trace s
                ++ [EvPrint InterruptReceived;
                    EvLog INFO InterruptSignalReceived; EvCleanup]
                ++ concat blocks ++ [EvLog INFO AllCleanedUp]
       | Some e =>
           x = Exception e
           /\ processes s' = processes s
           /\ memory_processes s' = memory_processes s
           /\ trace s'
              = trace s
                ++ [EvPrint InterruptReceived;
                    EvLog INFO InterruptSignalReceived; EvCleanup]
                ++ concat blocks
       end.
Proof.
  unfold signal_handler.
  unfold bind at 1. unfold print, emit at 1.
  unfold bind at 1. unfold log, emit at 1.
  unfold bind at 1. unfold set_running at 1.
  unfold bind at 1.
  match goal with
  | |- context [cleanup_processes ?s0] =>
      destruct (cleanup_processes_cases s0)
        as (r & s1 & bs & o & E1 & Hrun & Hr & _ & Hcase);
      rewrite E1
  end.
  cbn [world trace running processes memory_processes] in *.
  destruct o as [e|].
  - destruct Hcase as (-> & Hp & Hm & Ht).
    exists (Exception e), s1, bs, (Some e).
    repeat split; auto. rewrite Ht, <- !app_assoc. reflexivity.
  - destruct Hcase as (-> & Hp & Hm & Ht).
    exists (SystemExit 0), s1, bs, None.
    repeat split; auto. rewrite Ht, <- !app_assoc. reflexivity.
Qed.

End SignalHandler.

(* ===================================================================== *)
(** * Further properties of [CPUStressTester] *)
(* ===================================================================== *)

Section TesterExtras.

Context {W : Type} `{HW : Host W}.

(** X6.  When [stress_cpu] or [stress_memory] returns, it has started all
    the [n] workers it was asked for (none when [n <= 0]), one after the
    other, and appended them to its list in that order; the other list is
    untouched and the last record of the trace is the log line. *)
Theorem stress_returns_with_all_workers
  (kind : workload) (n duration arg : Z) (s s' : tester W) :
  stress kind n duration arg s = (Ok tt, s') ->
  let started := spawned kind arg (created s) (Z.to_nat n) in
  tracked kind s' = tracked kind s ++ started
  /\ untracked kind s' = untracked kind s
  /\ created s' = (created s + Z.to_nat n)%nat
  /\ trace s'
     = trace s ++ map (fun p => EvStart p None) started
         ++ [EvLog INFO (match kind with
                         | cpu_burn => StartedCpu n arg
                         | memory_burn_worker => StartedMemory n arg
                         end)].
Proof.
  rewrite stress_unfold. unfold try_except, bind at 1. intros E.
  destruct (spawn_loop_spec kind arg (Z.to_nat n) s)
    as (k & r & s1 & El & Hk & Ht & Hu & _ & Hcase).
  rewrite El in E.
  destruct Hcase as [(-> & -> & Hc & Htr)|(err & -> & _)].
  - unfold log, emit in E. inversion E; subst s'; clear E. cbn zeta.
    destruct kind; cbn [tracked untracked processes memory_processes
                          created trace] in *;
      repeat split; auto; rewrite Htr, <- app_assoc; reflexivity.
  - cbn in E. discriminate.
Qed.

(** X7.  [get_temperature_info] never raises an [Exception]: a failed sensor
    read becomes the single line it returns. Where the platform has no
    sensor interface it returns one fixed line without any call on the host. *)
Theorem get_temperature_info_contains_failures (s : tester W) :
  (forall e, fst (get_temperature_info s) <> Raise (Exception e))
  /\ (forall w' e,
        psutil_has_sensors (world s) = true ->
        psutil_sensors_temperatures (world s) = (w', Failed e) ->
        get_temperature_info s = (Ok [TempError e], set_world w' s))
  /\ (psutil_has_sensors (world s) = false ->
      get_temperature_info s = (Ok [TempNotSupported], s)).
Proof.
  unfold get_temperature_info, try_except.
  destruct (psutil_has_sensors (world s)) eqn:Eh.
  - unfold bind, blocking.
    destruct (psutil_sensors_temperatures (world s))
      as [w' [temps|e| |signum]] eqn:Ep.
    + split; [|split]; try discriminate. destruct temps; discriminate.
    + split; [|split]; try discriminate.
      intros w0 e0 _ E0. inversion E0; subst. reflexivity.
    + split; [|split]; discriminate.
    + pose proof (signal_handler_exits (A := list (string * list Q)) signum
                    (set_world w' s)) as Hx.
      destruct (signal_handler signum (set_world w' s)) as [r s1].
      cbn in Hx. subst r. cbn. split; [|split]; discriminate.
  - split; [|split]; try discriminate. reflexivity.
Qed.

End TesterExtras.

(* ===================================================================== *)
(** * The dashboard *)
(* ===================================================================== *)

(** X8.  The lines that [get_temperature_info] builds from the sensors are
    the readings that are not zero, and no other line: a sensor that reads
    0.0 is left out. *)
Theorem temp_lines_drops_zero_readings
  (temps : list (string * list Q)) (line : temp_line) :
  In line (temp_lines temps)
  <-> exists name entries current,
        line = TempReading name current
        /\ In (name, entries) temps
        /\ In current entries
        /\ ~ (current == 0)%Q.
Proof.
  unfold temp_lines. rewrite in_flat_map. split.
  - intros ([name entries] & Hin & Hl). cbn [fst snd] in Hl.
    rewrite in_flat_map in Hl. destruct Hl as (current & Hc & Hl).
    destruct (Qeq_bool current 0) eqn:Ez; [contradiction|].
    destruct Hl as [<-|[]].
    exists name, entries, current. repeat split; auto.
    intros Hq. apply Qeq_bool_iff in Hq. congruence.
  - intros (name & entries & current & -> & Hin & Hc & Hz).
    exists (name, entries). split; [exact Hin|]. cbn [fst snd].
    rewrite in_flat_map. exists current. split; [exact Hc|].
    destruct (Qeq_bool current 0) eqn:Ez.
    + apply Qeq_bool_iff in Ez. contradiction.
    + left. reflexivity.
Qed.

Section Dashboard.

Context {W : Type} `{HW : Host W}.

Lemma for_each_print {A} (f : A -> text) (l : list A) (s : tester W) :
  for_each l (fun x => emit (EvPrint (f x))) s
  = (Ok tt, mkTester (world s) (processes s) (memory_processes s) (running s)
                     (created s)
                     (trace s ++ map (fun x => EvPrint (f x)) l)).
Proof.
  revert s. induction l as [|x l IH]; intros s.
  - cbn. rewrite app_nil_r. destruct s; reflexivity.
  - cbn [for_each map]. unfold bind, emit at 1. rewrite IH.
    cbn. rewrite <- app_assoc. reflexivity.
Qed.

Lemma forallb_map_print {A} (f : A -> text) (l : list A) :
  forallb is_print (map (fun x => EvPrint (f x)) l) = true.
Proof. induction l; cbn; auto. Qed.

Lemma snoc_one {A} (z : A) : [z] = [] ++ [z].
Proof. reflexivity. Qed.

Lemma snoc_cons {A} (x z : A) (l b : list A) :
  l = b ++ [z] -> x :: l = (x :: b) ++ [z].
Proof. intros ->; reflexivity. Qed.

Lemma snoc_app {A} (z : A) (m l b : list A) :
  l = b ++ [z] -> m ++ l = (m ++ b) ++ [z].
Proof. intros ->; rewrite app_assoc; reflexivity. Qed.

Lemma blocking_cases {A} (op : W -> W * outcome A) (s : tester W) r s' :
  blocking op s = (r, s') ->
  match r with
  | Raise (SystemExit _) | Raise KeyboardInterrupt => True
  | _ => trace s' = trace s
  end.
Proof.
  unfold blocking. destruct (op (world s)) as [w' [a|e| |signum]].
  - intros E; inversion E; reflexivity.
  - intros E; inversion E; reflexivity.
  - intros E; inversion E; exact I.
  - intros E.
    pose proof (signal_handler_exits (A := A) signum (set_world w' s)) as Hx.
    rewrite E in Hx. cbn in Hx. subst r. exact I.
Qed.

Lemma get_temperature_info_cases (s : tester W) r s' :
  get_temperature_info s = (r, s') ->
  match r with
  | Ok _ => trace s' = trace s
  | Raise (Exception _) => False
  | Raise _ => True
  end.
Proof.
  unfold get_temperature_info, try_except.
  destruct (psutil_has_sensors (world s)).
  - unfold bind.
    destruct (blocking psutil_sensors_temperatures s) as [[temps|x] s1] eqn:Eb.
    + apply blocking_cases in Eb.
      destruct temps; intros E; inversion E; subst; exact Eb.
    + apply blocking_cases in Eb.
      destruct x as [e| |code]; cbn; intros E; inversion E; subst; auto.
  - intros E; inversion E; reflexivity.
Qed.

(** X9.  [display_dashboard] never lets an [Exception] out, and it draws all
    of the dashboard or none of it: when it returns, either one of the three
    readings failed before the screen was cleared, and the only output is
    the error message, printed and logged; or the screen was cleared, the
    whole dashboard printed and its metrics logged. *)
Theorem display_dashboard_all_or_nothing
  (start_time cpu_cores memory_size intensity : Z) (s s' : tester W)
  (r : result unit) :
  display_dashboard start_time cpu_cores memory_size intensity s = (r, s') ->
  (forall e, r <> Raise (Exception e))
  /\ (r = Ok tt ->
      (exists e,
         trace s'
         = trace s ++ [EvPrint (DashError e); EvLog ERROR (DashError e)])
      \/ (exists body cpu_usage percent,
            trace s'
            = trace s ++ EvClearScreen :: body
                ++ [EvLog INFO (DashMetrics (clock (world s) - start_time)
                                  cpu_usage percent)]
            /\ forallb is_print body = true)).
Proof.
  unfold display_dashboard. unfold bind at 1, time_time at 1.
  unfold try_except.
  unfold bind at 1.
  destruct (blocking _ s) as [[cpu_usage|x] s1] eqn:E1;
    apply blocking_cases in E1.
  2:{ destruct x as [e| |code]; cbn; intros E; inversion E; subst; clear E;
      (split; [discriminate|]); try discriminate.
      intros _. left. exists e. cbn. rewrite E1, <- app_assoc. reflexivity. }
  unfold bind at 1.
  destruct (blocking _ s1) as [[cpu_per_core|x] s2] eqn:E2;
    apply blocking_cases in E2.
  2:{ destruct x as [e| |code]; cbn; intros E; inversion E; subst; clear E;
      (split; [discriminate|]); try discriminate.
      intros _. left. exists e. cbn. rewrite E2, E1, <- app_assoc. reflexivity. }
  unfold bind at 1.
  destruct (blocking _ s2) as [[memory|x] s3] eqn:E3;
    apply blocking_cases in E3.
  2:{ destruct x as [e| |code]; cbn; intros E; inversion E; subst; clear E;
      (split; [discriminate|]); try discriminate.
      intros _. left. exists e. cbn. rewrite E3, E2, E1, <- app_assoc. reflexivity. }
  unfold print, log. cbn [bind emit world processes memory_processes running created trace].
  unfold bind at 1. rewrite for_each_print. cbn [bind emit world processes memory_processes running created trace].
  unfold bind at 1.
  match goal with
  | |- context [get_temperature_info ?s0] =>
      destruct (get_temperature_info s0) as [[temp_info|x] s4] eqn:E4;
      apply get_temperature_info_cases in E4
  end.
  2:{ destruct x as [e| |code]; [contradiction| |];
      cbn; intros E; inversion E; subst; split; discriminate. }
 
  cbn [bind emit world processes memory_processes running created trace].
  unfold bind at 1. rewrite for_each_print. cbn [bind emit world processes memory_processes running created trace].
 
  intros E; inversion E; subst; clear E. split; [discriminate|].
 
  intros _. right.
  cbn [trace] in *. rewrite E4, E3, E2, E1, <- !app_assoc. cbn [app].
  eexists _, cpu_usage, (vm_percent memory). split.
  - do 2 f_equal.
    repeat first [apply snoc_one | apply snoc_cons | apply snoc_app].
  - repeat first [ progress cbn [forallb is_print app andb]
                   | rewrite forallb_app
                   | rewrite forallb_map_print ].
    reflexivity.
Qed.

End Dashboard.

(* ===================================================================== *)
(** * Further properties of the [__main__] block *)
(* ===================================================================== *)

Section ProgramExtras.

Context {W : Type} `{HW : Host W}.

(** X10.  When [validate_args] rejects the arguments, the program prints the
    message of the [ValueError] and exits with status 1, and that is all: no
    tester is constructed, no log record is written, no call is made on the
    host. *)
Theorem main_rejects_invalid_arguments (a : Namespace.t) (s : tester W) :
  invalid a = true ->
  exists msg,
    main a s
    = (Raise (SystemExit 1),
       mkTester (world s) (processes s) (memory_processes s) (running s)
         (created s)
         (trace s ++ [EvPrint (InvalidArgument (mkError ValueError msg))])).
Proof.
  intros Hi.
  destruct (validate_args_cases a s) as [[_ [msg E]]|[Hv _]]; [|congruence].
  exists msg. unfold main, try_except.
  rewrite (bind_raised _ _ _ _ _ E). reflexivity.
Qed.

Lemma stress_raises_inv kind n duration arg (s s' : tester W) e :
  stress kind n duration arg s = (Raise e, s') ->
  exists (k : nat) err,
    e = Exception err
    /\ (k < Z.to_nat n)%nat
    /\ tracked kind s' = tracked kind s ++ spawned kind arg (created s) k
    /\ untracked kind s' = untracked kind s.
Proof.
  rewrite stress_unfold. unfold try_except, bind at 1. intros E.
  destruct (spawn_loop_spec kind arg (Z.to_nat n) s)
    as (k & r & s1 & El & Hk & Ht & Hu & _ & Hcase).
  rewrite El in E.
  destruct Hcase as [(-> & -> & _)|(err & -> & Hlt & _)].
  - unfold log, emit in E. discriminate.
  - cbn in E. inversion E; subst. exists k, err.
    destruct kind; cbn in *; auto 8.
Qed.

(** X11.  In the legacy mode nothing guards [stress_cpu]: when the start of
    a worker fails there, the program prints the error and exits with status
    1 from the state in which [stress_cpu] raised. The workers that did
    start are still tracked and [cleanup_processes] is never called. *)
Theorem legacy_spawn_failure_skips_cleanup
  (a : Namespace.t) (s0 s1 s2 : tester W) (e : exn) :
  Namespace.cpu_only a = true ->
  (validate_args a ;;
   print (LegacyBanner (Namespace.cores a) (Namespace.time a)
            (Namespace.intensity a)) ;;
   CPUStressTester) s0 = (Ok tt, s1) ->
  stress_cpu (Namespace.cores a) (Namespace.time a) (Namespace.intensity a) s1
  = (Raise e, s2) ->
  exists (k : nat) err,
    e = Exception err
    /\ (k < Z.to_nat (Namespace.cores a))%nat
    /\ processes s2
       = spawned cpu_burn (Namespace.intensity a) (created s1) k
    /\ main a s0
       = (Raise (SystemExit 1),
          mkTester (world s2) (processes s2) (memory_processes s2)
            (running s2) (created s2)
            (trace s2 ++ [EvPrint (match err_class err with
                                   | ValueError => InvalidArgument err
                                   | _ => UnexpectedError err
                                   end)])).
Proof.
  intros Hmode Hpre Hs.
  apply bind_returned_inv in Hpre. destruct Hpre as ([] & sa & Ea & Hpre).
  apply bind_returned_inv in Hpre. destruct Hpre as ([] & sb & Eb & Ec).
  assert (Hp1 : processes s1 = []).
  { destruct (snd (logging_setup (world sb))) as [err|] eqn:El.
    - apply CPUStressTester_raises in El. rewrite Ec in El. discriminate.
    - rewrite (CPUStressTester_returns _ El) in Ec. inversion Ec; reflexivity. }
  destruct (stress_raises_inv cpu_burn _ _ _ _ _ _ Hs)
    as (k & err & -> & Hk & Ht & _).
  cbn [tracked] in Ht. rewrite Hp1 in Ht. cbn [app] in Ht.
  exists k, err. repeat (split; [solve [auto]|]).
  unfold main, try_except. rewrite Hmode.
  rewrite (bind_returned _ _ _ _ _ Ea). unfold legacy_mode.
  rewrite (bind_returned _ _ _ _ _ Eb).
  rewrite (bind_returned _ _ _ _ _ Ec).
  rewrite (bind_raised _ _ _ _ _ Hs).
  destruct err as [[] msg]; reflexivity.
Qed.

End ProgramExtras.

(* ===================================================================== *)
(** * Further properties of [run_stress_test] and of the timed loops *)
(* ===================================================================== *)

Section RunExtras.

Context {W : Type} `{HW : Host W}.

Lemma expected_start_shutdown i mp ms ev :
  shutdown_event ev = true -> expected_start i mp ms ev = true.
Proof. destruct ev; try reflexivity; discriminate. Qed.

Lemma orderly_any_monitoring_tick a b c d :
  orderly W any_event (monitoring_tick a b c d).
Proof. apply orderly_monitoring_tick; reflexivity. Qed.

Lemma orderly_any_legacy_tick : orderly W any_event (legacy_tick (W := W)).
Proof. apply orderly_legacy_tick; reflexivity. Qed.

Lemma while_running_exit tick Hadv start_time duration (s s' : tester W) r :
  while_running tick Hadv start_time duration s = (r, s') ->
  r = Ok tt -> keep_going start_time duration s' = false.
Proof.
  revert s r s'.
  apply (while_running_ind tick Hadv start_time duration
           (fun _ r s' => r = Ok tt -> keep_going start_time duration s' = false)).
  - intros s Hs _. exact Hs.
  - intros s e s' _ _ Hr. discriminate.
  - intros s u s' r s'' _ _ _ IH Hr. exact (IH Hr).
Qed.

(** X12.  Every start that [run_stress_test] attempts is the start of a
    worker it was asked for: a CPU worker whose argument is the intensity,
    or a memory worker whose argument is the size, and the latter only when
    [memory_processes] is positive. *)
Theorem run_stress_test_starts_requested_workers
  (cpu_cores duration intensity mem_procs mem_size : Z) (s : tester W) :
  exists new,
    trace (snd (run_stress_test cpu_cores duration intensity mem_procs
                  mem_size s))
    = trace s ++ new
    /\ forall p r, In (EvStart p r) new ->
         (target p = cpu_burn /\ args p = intensity)
         \/ (target p = memory_burn_worker /\ args p = mem_size
             /\ 0 < mem_procs).
Proof.
  destruct (run_stress_test cpu_cores duration intensity mem_procs mem_size s)
    as [r s'] eqn:E.
  assert (Ho : orderly W (expected_start intensity mem_procs mem_size)
                 (run_stress_test cpu_cores duration intensity mem_procs
                    mem_size)).
  { apply orderly_run_stress_test.
    - apply expected_start_shutdown.
    - reflexivity.
    - reflexivity.
    - reflexivity.
    - intros i r0. cbn. apply Z.eqb_refl.
    - intros Hm i r0. cbn. rewrite Z.eqb_refl.
      apply Z.ltb_lt in Hm. rewrite Hm. reflexivity. }
  destruct (Ho _ _ _ E) as (new & Ht & Hf & _).
  exists new. split; [exact Ht|].
  intros p r0 Hin. rewrite forallb_forall in Hf. specialize (Hf _ Hin).
  destruct p as [i [] a]; cbn in Hf |- *.
  - apply Z.eqb_eq in Hf. auto.
  - apply andb_true_iff in Hf. destruct Hf as [H1 H2].
    apply Z.ltb_lt in H1. apply Z.eqb_eq in H2. auto.
Qed.

(** X13.  The test [self.running] of the two timed loops never ends them: a
    loop entered with the flag set returns only with the flag still set and
    the deadline reached, because the only statement that clears the flag,
    [signal_handler], leaves by [SystemExit]. *)
Theorem timed_loops_return_at_the_deadline
  (start_time duration cpu_cores memory_size intensity : Z)
  (s s' : tester W) :
  running s = true ->
  while_running (monitoring_tick start_time cpu_cores memory_size intensity)
    (monitoring_tick_clock start_time cpu_cores memory_size intensity)
    start_time duration s = (Ok tt, s')
  \/ while_running legacy_tick legacy_tick_clock start_time duration s
     = (Ok tt, s') ->
  running s' = true
  /\ duration * second <= clock (world s') - start_time.
Proof.
  intros Hr [E|E].
  - pose proof (while_running_exit _ _ _ _ _ _ _ E eq_refl) as Hx.
    destruct (orderly_while_running any_event _ _ start_time duration
                (orderly_any_monitoring_tick _ _ _ _) _ _ _ E)
      as (new & _ & _ & Hk).
    cbn in Hk. rewrite Hr in Hk. split; [exact Hk|].
    unfold keep_going in Hx. rewrite Hk in Hx. cbn in Hx.
    apply Z.ltb_ge in Hx. exact Hx.
  - pose proof (while_running_exit _ _ _ _ _ _ _ E eq_refl) as Hx.
    destruct (orderly_while_running any_event _ _ start_time duration
                orderly_any_legacy_tick _ _ _ E)
      as (new & _ & _ & Hk).
    cbn in Hk. rewrite Hr in Hk. split; [exact Hk|].
    unfold keep_going in Hx. rewrite Hk in Hx. cbn in Hx.
    apply Z.ltb_ge in Hx. exact Hx.
Qed.

Lemma concludes_bind {A} (m : M W A) (k : A -> M W unit) fin :
  orderly W any_event m ->
  (forall a, concludes W fin (k a)) ->
  concludes W fin (bind m k).
Proof.
  intros Hm Hk s s' Hr E.
  apply bind_returned_inv in E. destruct E as (a & s1 & E1 & E2).
  destruct (Hm _ _ _ E1) as (n1 & H1 & _ & R1). cbn in R1.
  rewrite Hr in R1.
  destruct (Hk a s1 s' R1 E2) as [Hr' [b Hb]].
  split; [exact Hr'|]. exists (n1 ++ b).
  rewrite Hb, H1, <- !app_assoc. reflexivity.
Qed.

Lemma concludes_run_stress_test_suite cores duration intensity mem_procs
  mem_size :
  concludes W (report INFO CompletedSuccessfully)
    (run_stress_test_suite cores duration intensity mem_procs mem_size).
Proof.
  assert (P_shutdown : forall ev,
            shutdown_event ev = true -> any_event ev = true)
    by reflexivity.
  unfold run_stress_test_suite.
  repeat (apply concludes_bind;
          [ repeat lazymatch goal with
              | |- orderly W _ get_system_info =>
                  apply orderly_get_system_info; reflexivity
              | |- orderly W _ (stress_cpu _ _ _) =>
                  apply orderly_stress_cpu; reflexivity
              | |- orderly W _ (stress_memory _ _) =>
                  apply orderly_stress_memory; reflexivity
              | |- orderly W _ (monitoring_tick _ _ _ _) =>
                  apply orderly_any_monitoring_tick
              | _ => orderly_step
              end
          | intros ]).
  intros s s' Hr E. rewrite Hr in E.
  unfold bind, print, log, emit in E. inversion E; subst; clear E.
  cbn. split; [exact Hr|]. exists []. rewrite <- app_assoc. reflexivity.
Qed.

(** X14.  [run_stress_test] always says how the run ended. Called with
    [running] set, when it returns the last thing before the final cleanup
    is one report, printed and logged: completed, interrupted by the user,
    or the error; and [running] is still set. When it leaves by [SystemExit]
    instead, the status is 0, [signal_handler] has printed its message and
    cleaned up, [running] is cleared, and the cleanup of the [finally]
    clause finds no worker left. *)
Theorem run_stress_test_reports_how_it_ended
  (cpu_cores duration intensity mem_procs mem_size : Z) (s s' : tester W)
  (r : result unit) :
  running s = true ->
  run_stress_test cpu_cores duration intensity mem_procs mem_size s = (r, s') ->
  exists pre,
    match r with
    | Ok _ =>
        running s' = true
        /\ exists blocks,
             trace s'
             = trace s ++ pre ++ [EvCleanup] ++ concat blocks
                 ++ [EvLog INFO AllCleanedUp]
             /\ exists before,
                  pre = before ++ report INFO CompletedSuccessfully
                  \/ pre = before ++ report INFO InterruptedByUser
                  \/ exists e,
                       pre = before ++ report ERROR (ErrorDuringStressTest e)
    | Raise x =>
        x = SystemExit 0
        /\ running s' = false
        /\ trace s' = trace s ++ pre ++ [EvCleanup; EvLog INFO AllCleanedUp]
        /\ In (EvPrint InterruptReceived) pre
        /\ In EvCleanup pre
    end.
Proof.
  intros Hr E. unfold run_stress_test, try_finally in E.
  destruct (run_stress_test_guarded cpu_cores duration intensity mem_procs
              mem_size s) as [r0 s0] eqn:E0.
  destruct (cleanup_processes_spec s0)
    as (s1 & bs & E1 & _ & _ & Hr1 & _ & Ht1 & Hb1).
  rewrite E1 in E. inversion E; subst r0 s1; clear E.
  pose proof (run_stress_test_guarded_result cpu_cores duration intensity
                mem_procs mem_size s) as Hres.
  rewrite E0 in Hres. cbn [fst] in Hres.
  assert (Ho : orderly W any_event
                 (run_stress_test_guarded cpu_cores duration intensity
                    mem_procs mem_size))
    by (apply orderly_run_stress_test_guarded; reflexivity).
  destruct (Ho _ _ _ E0) as (pre & Hpre & _ & Hcase).
  destruct Hres as [-> | ->].
  - (* the guarded statement returned *)
    rewrite run_stress_test_guarded_unfold in E0. unfold try_except in E0.
    destruct (run_stress_test_suite cpu_cores duration intensity mem_procs
                mem_size s) as [[[]|x] sb] eqn:Eb.
    + inversion E0; subst sb; clear E0.
      destruct (concludes_run_stress_test_suite _ _ _ _ _ _ _ Hr Eb)
        as [Hrb [before Hbefore]].
      exists (before ++ report INFO CompletedSuccessfully).
      split; [congruence|]. exists bs. split.
      * rewrite Ht1, Hbefore, <- !app_assoc. reflexivity.
      * exists before. auto.
    + assert (Hs : orderly W any_event
                     (run_stress_test_suite cpu_cores duration intensity
                        mem_procs mem_size))
        by (apply orderly_run_stress_test_suite; reflexivity).
      destruct (Hs _ _ _ Eb) as (nb & Hnb & _ & Hcb).
      destruct x as [e| |code]; cbn in E0, Hcb.
      * unfold bind, print, log, emit in E0. inversion E0; subst s0; clear E0.
        cbn in *.
        exists (nb ++ report ERROR (ErrorDuringStressTest e)).
        split; [congruence|]. exists bs. split.
        -- rewrite Ht1, Hnb, <- !app_assoc. reflexivity.
        -- exists nb. eauto.
      * unfold bind, print, log, emit in E0. inversion E0; subst s0; clear E0.
        cbn in *.
        exists (nb ++ report INFO InterruptedByUser).
        split; [congruence|]. exists bs. split.
        -- rewrite Ht1, Hnb, <- !app_assoc. reflexivity.
        -- exists nb. auto.
      * discriminate.
  - (* an interrupt *)
    destruct Hcase as (Hf & Hp & Hm & Hin & Hin').
    rewrite Hp, Hm in Hb1. inversion Hb1; subst bs.
    exists pre. repeat split; auto; try congruence.
    rewrite Ht1, Hpre, <- !app_assoc. reflexivity.
Qed.

End RunExtras.

(* ===================================================================== *)
(** * How often the dashboard is drawn *)
(* ===================================================================== *)

Section Within.

Context {W : Type} `{HW : Host W}.

Lemma renders_app (l1 l2 : list event) :
  renders (l1 ++ l2) = (renders l1 + renders l2)%nat.
Proof. unfold renders. rewrite filter_app, length_app. reflexivity. Qed.

Lemma renders_not_clear (l : list event) :
  forallb not_clear l = true -> renders l = 0%nat.
Proof.
  unfold renders, not_clear. induction l as [|ev l IH]; [reflexivity|].
  cbn. intros H. apply andb_true_iff in H. destruct H as [H1 H2].
  destruct (is_clear ev); [discriminate|]. auto.
Qed.

Lemma not_clear_shutdown ev : shutdown_event ev = true -> not_clear ev = true.
Proof. destruct ev; try reflexivity; discriminate. Qed.

Lemma within_orderly {A} (m : M W A) :
  orderly W not_clear m -> within W 0 m.
Proof.
  intros Hm s r s' E. destruct (Hm _ _ _ E) as (new & Ht & Hf & _).
  exists new. split; [exact Ht|]. rewrite (renders_not_clear _ Hf). lia.
Qed.

Lemma within_emit ev : within W 1 (emit ev : M W unit).
Proof.
  intros s r s' E. inversion E; subst. exists [ev]. split; [reflexivity|].
  unfold renders. cbn. destruct (is_clear ev); cbn; lia.
Qed.

Lemma within_bind {A B} (n k : nat) (m : M W A) (f : A -> M W B) :
  within W n m -> (forall a, within W k (f a)) -> within W (n + k) (bind m f).
Proof.
  intros Hm Hf s r s' E. unfold bind in E.
  destruct (m s) as [[a|e] s1] eqn:Em.
  - destruct (Hm _ _ _ Em) as (n1 & H1 & L1).
    destruct (Hf a _ _ _ E) as (n2 & H2 & L2).
    exists (n1 ++ n2). rewrite H2, H1, app_assoc, renders_app.
    split; [reflexivity | lia].
  - inversion E; subst. destruct (Hm _ _ _ Em) as (n1 & H1 & L1).
    exists n1. split; [exact H1 | lia].
Qed.

Lemma within_try_except {A} (n k : nat) (m : M W A)
  (h : exn -> option (M W A)) :
  within W n m ->
  (forall e c, h e = Some c -> within W k c) ->
  within W (n + k) (try_except m h).
Proof.
  intros Hm Hh s r s' E. unfold try_except in E.
  destruct (m s) as [[a|e] s1] eqn:Em;
    destruct (Hm _ _ _ Em) as (n1 & H1 & L1).
  - inversion E; subst. exists n1. split; [exact H1 | lia].
  - destruct (h e) as [c|] eqn:Eh.
    + destruct (Hh _ _ Eh _ _ _ E) as (n2 & H2 & L2).
      exists (n1 ++ n2). rewrite H2, H1, app_assoc, renders_app.
      split; [reflexivity | lia].
    + inversion E; subst. exists n1. split; [exact H1 | lia].
Qed.

Lemma within_try_finally {A} (n k : nat) (m : M W A) (f : M W unit) :
  within W n m -> within W k f -> within W (n + k) (try_finally m f).
Proof.
  intros Hm Hf s r s' E. unfold try_finally in E.
  destruct (m s) as [r0 s0] eqn:Em.
  destruct (Hm _ _ _ Em) as (n1 & H1 & L1).
  destruct (f s0) as [[[]|e] s1] eqn:Ef;
    destruct (Hf _ _ _ Ef) as (n2 & H2 & L2);
    inversion E; subst;
    exists (n1 ++ n2); rewrite H2, H1, app_assoc, renders_app;
    (split; [reflexivity | lia]).
Qed.

Ltac quiet_step :=
  lazymatch goal with
  | |- orderly _ _ get_temperature_info =>
      apply orderly_get_temperature_info;
      first [exact not_clear_shutdown | reflexivity]
  | |- orderly _ _ get_system_info =>
      apply orderly_get_system_info;
      first [exact not_clear_shutdown | reflexivity]
  | |- orderly _ _ (stress_cpu _ _ _) =>
      apply orderly_stress_cpu;
      first [exact not_clear_shutdown | reflexivity]
  | |- orderly _ _ (stress_memory _ _) =>
      apply orderly_stress_memory;
      first [exact not_clear_shutdown | reflexivity]
  | _ => orderly_step
  end.

Lemma within_display_dashboard a b c d :
  within W 1 (display_dashboard a b c d).
Proof.
  pose proof not_clear_shutdown as P_shutdown.
  unfold display_dashboard.
  apply (within_bind 0 1); [apply within_orderly; repeat quiet_step|].
  intros now. apply (within_try_except 1 0).
  - apply (within_bind 0 1); [apply within_orderly; repeat quiet_step|].
    intros cpu_usage.
    apply (within_bind 0 1); [apply within_orderly; repeat quiet_step|].
    intros cpu_per_core.
    apply (within_bind 0 1); [apply within_orderly; repeat quiet_step|].
    intros memory.
    apply (within_bind 1 0); [apply within_emit|].
    intros _. apply within_orderly. repeat quiet_step.
  - intros [e| |code] k E; inversion E; subst.
    apply within_orderly. repeat quiet_step.
Qed.

Lemma within_monitoring_tick a b c d :
  within W 1 (monitoring_tick a b c d).
Proof.
  pose proof not_clear_shutdown as P_shutdown.
  unfold monitoring_tick.
  apply (within_bind 1 0); [apply within_display_dashboard|].
  intros _. apply within_orderly. repeat quiet_step.
Qed.

(** Each iteration takes a second at least, so the loop draws the dashboard
    no more often than there are seconds left, rounded up. *)
Lemma within_monitoring_loop start_time duration c ms i (s s' : tester W) r :
  while_running (monitoring_tick start_time c ms i)
    (monitoring_tick_clock start_time c ms i) start_time duration s = (r, s') ->
  exists new,
    trace s' = trace s ++ new
    /\ (renders new
        <= Z.to_nat ((start_time + duration * second - clock (world s)
                      + second - 1) / second))%nat.
Proof.
  revert s r s'.
  apply (while_running_ind _ _ start_time duration
           (fun s _ s' =>
              exists new,
                trace s' = trace s ++ new
                /\ (renders new
                    <= Z.to_nat ((start_time + duration * second
                                  - clock (world s) + second - 1) / second))%nat)).
  - intros s _. exists []. rewrite app_nil_r. split; [reflexivity|].
    cbn. lia.
  - intros s e s' Hgo E.
    destruct (within_monitoring_tick _ _ _ _ _ _ _ E) as (new & Ht & Hl).
    exists new. split; [exact Ht|].
    unfold keep_going in Hgo. apply andb_true_iff in Hgo.
    destruct Hgo as [_ Hlt]. apply Z.ltb_lt in Hlt.
    unfold second in *. Z.to_euclidean_division_equations. lia.
  - intros s u s' r s'' Hgo E _ (n2 & H2 & L2).
    destruct (within_monitoring_tick _ _ _ _ _ _ _ E) as (n1 & H1 & L1).
    apply monitoring_tick_clock in E.
    exists (n1 ++ n2). rewrite H2, H1, app_assoc, renders_app.
    split; [reflexivity|].
    unfold keep_going in Hgo. apply andb_true_iff in Hgo.
    destruct Hgo as [_ Hlt]. apply Z.ltb_lt in Hlt.
    unfold second in *. Z.to_euclidean_division_equations. lia.
Qed.

Lemma within_timed_loop duration c ms i (k : M W unit) :
  within W 0 k ->
  within W (Z.to_nat duration)
    (start_time <- time_time ;;
     while_running (monitoring_tick start_time c ms i)
       (monitoring_tick_clock start_time c ms i) start_time duration ;;
     k).
Proof.
  intros Hk s r s' E. unfold bind at 1, time_time in E.
  unfold bind in E.
  destruct (while_running _ _ _ _ s) as [[[]|e] s1] eqn:Ew;
    destruct (within_monitoring_loop _ _ _ _ _ _ _ _ Ew) as (n1 & H1 & L1).
  - destruct (Hk _ _ _ E) as (n2 & H2 & L2).
    exists (n1 ++ n2). rewrite H2, H1, app_assoc, renders_app.
    split; [reflexivity|].
    revert L1. unfold second. intros L1.
    Z.to_euclidean_division_equations. lia.
  - inversion E; subst. exists n1. split; [exact H1|].
    revert L1. unfold second. intros L1.
    Z.to_euclidean_division_equations. lia.
Qed.

Lemma within_run_stress_test_suite cores duration intensity mem_procs
  mem_size :
  within W (Z.to_nat duration)
    (run_stress_test_suite cores duration intensity mem_procs mem_size).
Proof.
  pose proof not_clear_shutdown as P_shutdown.
  unfold run_stress_test_suite.
  do 6 (apply (within_bind 0 (Z.to_nat duration));
        [apply within_orderly; repeat quiet_step | intros]).
  apply within_timed_loop. apply within_orderly. repeat quiet_step.
Qed.

(** X15.  [run_stress_test] draws the dashboard at most [duration] times,
    and not at all when [duration] is not positive: every drawing is
    followed by a sleep of one second, and the loop is not entered once
    [duration] seconds have passed. *)
Theorem run_stress_test_draws_at_most_duration_times
  (cpu_cores duration intensity mem_procs mem_size : Z) (s : tester W) :
  exists new,
    trace (snd (run_stress_test cpu_cores duration intensity mem_procs
                  mem_size s))
    = trace s ++ new
    /\ (length (filter is_clear new) <= Z.to_nat duration)%nat.
Proof.
  pose proof not_clear_shutdown as P_shutdown.
  assert (Hw : within W (Z.to_nat duration)
                 (run_stress_test cpu_cores duration intensity mem_procs
                    mem_size)).
  { unfold run_stress_test.
    replace (Z.to_nat duration) with ((Z.to_nat duration + 0) + 0)%nat by lia.
    apply within_try_finally; [|apply within_orderly; repeat quiet_step].
    rewrite run_stress_test_guarded_unfold.
    apply within_try_except.
    - apply within_run_stress_test_suite.
    - intros [e| |code] k E; inversion E; subst;
        apply within_orderly; repeat quiet_step. }
  destruct (run_stress_test cpu_cores duration intensity mem_procs mem_size s)
    as [r s'] eqn:E.
  exact (Hw _ _ _ E).
Qed.

End Within.

(* ===================================================================== *)
(** * The further properties on the simulated host *)
(* ===================================================================== *)

Lemma stress_returns_with_all_workers_witness :
  tracked memory_burn_worker
    (snd (stress memory_burn_worker 2 0 100 (boot Sim.calm)))
  = [] ++ spawned memory_burn_worker 100 0 (Z.to_nat 2)
  /\ untracked memory_burn_worker
       (snd (stress memory_burn_worker 2 0 100 (boot Sim.calm)))
     = [].
Proof.
  assert (E : stress memory_burn_worker 2 0 100 (boot Sim.calm)
              = (Ok tt, snd (stress memory_burn_worker 2 0 100
                               (boot Sim.calm))))
    by (vm_compute; reflexivity).
  pose proof (stress_returns_with_all_workers _ _ _ _ _ _ E) as H.
  cbv zeta in H. destruct H as (Ht & Hu & _).
  split; [exact Ht | exact Hu].
Defined.

Lemma get_temperature_info_contains_failures_witness :
  get_temperature_info (boot Sim.calm) = (Ok [TempNotSupported], boot Sim.calm).
Proof.
  destruct (get_temperature_info_contains_failures (boot Sim.calm))
    as (_ & _ & H).
  apply H. reflexivity.
Defined.

Lemma display_dashboard_all_or_nothing_witness :
  exists e,
    trace (snd (display_dashboard 0 2 0 1 (boot Sim.poll_fails)))
    = [] ++ [EvPrint (DashError e); EvLog ERROR (DashError e)].
Proof.
  assert (E : display_dashboard 0 2 0 1 (boot Sim.poll_fails)
              = (Ok tt, snd (display_dashboard 0 2 0 1 (boot Sim.poll_fails))))
    by (vm_compute; reflexivity).
  destruct (display_dashboard_all_or_nothing _ _ _ _ _ _ _ E) as [_ H].
  destruct (H eq_refl) as [He|(body & c & m & Hb & _)].
  - exact He.
  - exfalso. vm_compute in Hb. destruct body; discriminate.
Defined.

Lemma main_rejects_invalid_arguments_witness :
  exists msg,
    main (Namespace.mk 0 10 1 0 100 false) (boot Sim.calm)
    = (Raise (SystemExit 1),
       mkTester Sim.calm [] [] true 0
         ([] ++ [EvPrint (InvalidArgument (mkError ValueError msg))])).
Proof.
  apply (main_rejects_invalid_arguments (Namespace.mk 0 10 1 0 100 false)
           (boot Sim.calm)).
  reflexivity.
Defined.

Lemma legacy_spawn_failure_skips_cleanup_witness :
  exists s',
    main (Sim.two_cores true) (boot Sim.second_start_fails)
    = (Raise (SystemExit 1), s')
    /\ processes s' = [mkProcess 0 cpu_burn 1].
Proof.
  pose (a := Sim.two_cores true).
  pose (s0 := boot Sim.second_start_fails).
  pose (s1 := snd ((validate_args a ;;
                    print (LegacyBanner (Namespace.cores a) (Namespace.time a)
                             (Namespace.intensity a)) ;;
                    CPUStressTester)%py s0)).
  pose (s2 := snd (stress_cpu (Namespace.cores a) (Namespace.time a)
                     (Namespace.intensity a) s1)).
  assert (E1 : (validate_args a ;;
                print (LegacyBanner (Namespace.cores a) (Namespace.time a)
                         (Namespace.intensity a)) ;;
                CPUStressTester)%py s0 = (Ok tt, s1))
    by (vm_compute; reflexivity).
  assert (E2 : stress_cpu (Namespace.cores a) (Namespace.time a)
                 (Namespace.intensity a) s1
               = (Raise (Exception
                           (mkError OSError "Resource temporarily unavailable")),
                  s2))
    by (vm_compute; reflexivity).
  destruct (legacy_spawn_failure_skips_cleanup a s0 s1 s2 _ eq_refl E1 E2)
    as (k & err & _ & _ & _ & Hmain).
  eexists. split; [exact Hmain|]. vm_compute. reflexivity.
Defined.

Lemma timed_loops_return_at_the_deadline_witness :
  running (snd (while_running legacy_tick legacy_tick_clock 0 2
                  (boot Sim.calm))) = true
  /\ 2 * second
     <= clock (world (snd (while_running legacy_tick legacy_tick_clock 0 2
                             (boot Sim.calm)))) - 0.
Proof.
  assert (E : while_running legacy_tick legacy_tick_clock 0 2 (boot Sim.calm)
              = (Ok tt,
                 snd (while_running legacy_tick legacy_tick_clock 0 2
                        (boot Sim.calm))))
    by (vm_compute; reflexivity).
  exact (timed_loops_return_at_the_deadline 0 2 0 0 0 (boot Sim.calm) _
           eq_refl (or_intror E)).
Defined.

Lemma run_stress_test_reports_how_it_ended_witness :
  exists pre,
    running (snd (run_stress_test 2 2 1 0 100 (boot Sim.interrupted))) = false
    /\ In (EvPrint InterruptReceived) pre
    /\ In EvCleanup pre.
Proof.
  assert (E : run_stress_test 2 2 1 0 100 (boot Sim.interrupted)
              = (Raise (SystemExit 0),
                 snd (run_stress_test 2 2 1 0 100 (boot Sim.interrupted))))
    by (vm_compute; reflexivity).
  destruct (run_stress_test_reports_how_it_ended _ _ _ _ _
              (boot Sim.interrupted) _ _ eq_refl E)
    as (pre & _ & Hr & _ & Hin & Hin').
  exists pre. auto.
Defined.
